(** * mvp_pixel_excel: image to monochrome pixel-art spreadsheet

    A shallow embedding of [mvp_pixel_excel.py] and the properties its
    specification states about it.

    - Python integers are [Z]; Python floats are IEEE 754 binary64 values,
      taken from the Standard Library's [SpecFloat] ([prec = 53],
      [emax = 1024]).
    - Exceptions, [sys.exit], the two output streams, the file system and
      the calls into Pillow and openpyxl are explicit: a computation is a
      function from a [world] to an [outcome] and the world after it.
    - Pillow's Lanczos resampling, the letters of openpyxl's columns and
      what [argparse] makes of a command line are not part of the program;
      they are parameters of the development.  What the program relies on
      of them is modelled: a column index above 18278 has no letter and
      raises, and [argparse] ends the process itself on a command line it
      does not accept.
    - A path is a key of the file system as it is spelled; the model has no
      links and no second spelling of a path. *)

From Stdlib Require Import ZArith QArith SpecFloat.
From stdpp Require Import gmap strings list pretty.

Open Scope Z_scope.

(** ** Python exceptions and results *)

(** The handlers of the program tell two classes apart:
    [FileNotFoundError], and every other subclass of [Exception].  Each
    carries the text of [str(e)]. *)
Inductive exn :=
| FileNotFoundError (msg : string)
| Exception (msg : string).

Definition str (e : exn) : string :=
  match e with
  | FileNotFoundError msg => msg
  | Exception msg => msg
  end.

(** A pure computation that may raise. *)
Definition result (A : Type) : Type := exn + A.

Definition result_bind {A B} (f : A → result B) (r : result A) : result B :=
  match r with
  | inl e => inl e
  | inr a => f a
  end.

#[global] Instance result_ret : MRet result := λ A a, inr a.
#[global] Instance result_mbind : MBind result := λ A B f r, result_bind f r.

(** ** Python floats *)

Module PyFloat.

Definition prec : Z := 53.
Definition emax : Z := 1024.

Abbreviation float := spec_float.

(** Python integer seen as a (mantissa, exponent 0) pair, not yet rounded. *)
Definition of_int_exact (z : Z) : float :=
  match z with
  | Z0 => S754_zero false
  | Zpos p => S754_finite false p 0
  | Zneg p => S754_finite true p 0
  end.

(** [float(z)]: round to nearest even; [OverflowError] beyond the range. *)
Definition of_int (z : Z) : result float :=
  match binary_normalize prec emax z 0 false with
  | S754_infinity _ => inl (Exception "int too large to convert to float")
  | f => inr f
  end.

(** [a / b] on integers: the exact quotient, rounded once to nearest even
    (for operands below 2^53 this is the quotient of their conversions);
    [ZeroDivisionError] and [OverflowError] are raised as in Python. *)
Definition int_truediv (a b : Z) : result float :=
  if b =? 0 then inl (Exception "division by zero")
  else
    match SFdiv prec emax (of_int_exact a) (of_int_exact b) with
    | S754_infinity _ =>
        inl (Exception "integer division result too large for a float")
    | f => inr f
    end.

(** [n * x] with [n] an integer and [x] a float: [n] is converted first. *)
Definition int_mul_float (n : Z) (x : float) : result float :=
  fn ← of_int n;
  mret (SFmul prec emax fn x).

(** [int(x)]: truncation toward zero. *)
Definition to_int (x : float) : result Z :=
  match x with
  | S754_zero _ => inr 0
  | S754_finite s m e => inr (cond_Zopp s (Z.shiftl (Zpos m) e))
  | S754_infinity _ =>
      inl (Exception "cannot convert float infinity to integer")
  | S754_nan => inl (Exception "cannot convert float NaN to integer")
  end.

End PyFloat.

(** Where a quotient with remainder [r] and divisor [D] lies between two
    consecutive integers: on the lower one, or below, at or above the
    middle.  This is the position [SpecFloat] rounds from. *)
Definition loc_of (r D : Z) : location :=
  if r =? 0 then loc_Exact else loc_Inexact (2 * r ?= D).

(** ** Pillow images *)

Module PIL.

(** A decoded image in mode ['L']: its size and one intensity per pixel. *)
Record image := Image {
  width : Z;
  height : Z;
  data : Z → Z → Z
}.

(** [img.getpixel((x, y))]: negative coordinates count from the far edge,
    and a coordinate outside the image raises [IndexError]. *)
Definition getpixel (img : image) (x y : Z) : result Z :=
  let x := if x <? 0 then width img + x else x in
  let y := if y <? 0 then height img + y else y in
  if (0 <=? x) && (x <? width img) && (0 <=? y) && (y <? height img)
  then inr (data img x y)
  else inl (Exception "image index out of range").

End PIL.

(** ** openpyxl workbooks *)

Module openpyxl.

Record PatternFill := Build_PatternFill {
  start_color : string;
  end_color : string;
  fill_type : string
}.

Record cell := Cell {
  value : option string;
  fill : option PatternFill
}.

(** The cell [ws.cell(row, column)] creates when there is none yet. *)
Definition blank : cell := Cell None None.

Record worksheet := Worksheet {
  title : string;
  cells : gmap (Z * Z) cell;
  column_dimensions : gmap string Q;
  row_dimensions : gmap Z Z;
  showGridLines : bool
}.

(** The active sheet of [Workbook()]. *)
Definition new_sheet : worksheet := Worksheet "Sheet" ∅ ∅ ∅ true.

Record workbook := Workbook { active : worksheet }.

Definition set_title (t : string) (ws : worksheet) : worksheet :=
  Worksheet t (cells ws) (column_dimensions ws) (row_dimensions ws)
    (showGridLines ws).

(** [ws.cell(row=r, column=c)]: the cell is created on first access. *)
Definition touch_cell (r c : Z) (ws : worksheet) : worksheet :=
  match cells ws !! (r, c) with
  | Some _ => ws
  | None =>
      Worksheet (title ws) (<[(r, c) := blank]> (cells ws))
        (column_dimensions ws) (row_dimensions ws) (showGridLines ws)
  end.

Definition alter_cell (f : cell → cell) (r c : Z) (ws : worksheet)
  : worksheet :=
  Worksheet (title ws) (alter f (r, c) (cells ws))
    (column_dimensions ws) (row_dimensions ws) (showGridLines ws).

Definition set_value (v : string) (x : cell) : cell := Cell (Some v) (fill x).
Definition set_fill (p : PatternFill) (x : cell) : cell :=
  Cell (value x) (Some p).

(** [ws.column_dimensions[letter].width = w] *)
Definition set_column_width (letter : string) (w : Q) (ws : worksheet)
  : worksheet :=
  Worksheet (title ws) (cells ws) (<[letter := w]> (column_dimensions ws))
    (row_dimensions ws) (showGridLines ws).

(** [ws.row_dimensions[r].height = h] *)
Definition set_row_height (r : Z) (h : Z) (ws : worksheet) : worksheet :=
  Worksheet (title ws) (cells ws) (column_dimensions ws)
    (<[r := h]> (row_dimensions ws)) (showGridLines ws).

(** [ws.sheet_view.showGridLines = b] *)
Definition set_showGridLines (b : bool) (ws : worksheet) : worksheet :=
  Worksheet (title ws) (cells ws) (column_dimensions ws) (row_dimensions ws) b.

End openpyxl.

(** ** The world the program runs in *)

(** What a path of the file system holds:
    - an image, given by what [Image.open(path).convert('L')] returns;
    - anything Pillow fails on, with the text of the exception it raises;
    - a workbook written by [wb.save]. *)
Inductive file :=
| ImageFile (img : PIL.image)
| UnreadableFile (msg : string)
| XlsxFile (wb : openpyxl.workbook).

(** Calls that leave the program. *)
Inductive call :=
| OpenCall (path : string)
| ResizeCall (w h : Z)
| SaveCall (path : string).

(** How a save fails: the exception [wb.save] raises, and what it leaves
    at the path.  openpyxl opens the archive for writing before it
    serialises the workbook: a save that fails on opening leaves the path as
    it was, one that fails later leaves a partial file. *)
Record save_failure := SaveFailure {
  raised : exn;
  left_behind : option file
}.

Record world := World {
  files : gmap string file;
  (* paths [wb.save] fails on, and how *)
  save_error : string → option save_failure;
  (* what [print] raises on U+2713 when the standard output cannot encode it *)
  check_mark_error : option exn;
  stdout : list string;
  stderr : list string;
  calls : list call
}.

(** How a computation ends: with a value, with an exception on its way up,
    or with [sys.exit(code)], which no [except Exception] clause stops. *)
Inductive outcome (A : Type) :=
| Ok (a : A)
| Raise (e : exn)
| Exit (code : Z).
Arguments Ok {A} a.
Arguments Raise {A} e.
Arguments Exit {A} code.

Definition M (A : Type) : Type := world → outcome A * world.

#[global] Instance M_ret : MRet M := λ A a w, (Ok a, w).
#[global] Instance M_bind : MBind M := λ A B f m w,
  match m w with
  | (Ok a, w') => f a w'
  | (Raise e, w') => (Raise e, w')
  | (Exit c, w') => (Exit c, w')
  end.

Definition lift {A} (r : result A) : M A := λ w,
  match r with
  | inl e => (Raise e, w)
  | inr a => (Ok a, w)
  end.

(** [try: body except ... : handler] *)
Definition try_except {A} (body : M A) (handler : exn → M A) : M A := λ w,
  match body w with
  | (Raise e, w') => handler e w'
  | other => other
  end.

Definition sys_exit {A} (code : Z) : M A := λ w, (Exit code, w).

(** The effects on the world, one at a time. *)
Definition add_stdout (line : string) (w : world) : world :=
  World (files w) (save_error w) (check_mark_error w) (stdout w ++ [line])
    (stderr w) (calls w).

Definition add_stderr (line : string) (w : world) : world :=
  World (files w) (save_error w) (check_mark_error w) (stdout w)
    (stderr w ++ [line]) (calls w).

Definition log_call (c : call) (w : world) : world :=
  World (files w) (save_error w) (check_mark_error w) (stdout w) (stderr w)
    (calls w ++ [c]).

Definition write_file (path : string) (f : file) (w : world) : world :=
  World (<[path := f]> (files w)) (save_error w) (check_mark_error w)
    (stdout w) (stderr w) (calls w).

(** [print(line)] for a line the standard output can encode: ASCII text
    and the paths of the command line, which reached the program in the
    encoding of the stream. *)
Definition print (line : string) : M () := λ w, (Ok (), add_stdout line w).

(** [print(line)] for a line with U+2713, which the source writes itself
    and which not every standard output can encode: [print] then raises
    [UnicodeEncodeError] and writes nothing. *)
Definition print_check_mark (line : string) : M () := λ w,
  match check_mark_error w with
  | Some e => (Raise e, w)
  | None => (Ok (), add_stdout line w)
  end.

Definition print_stderr (line : string) : M () := λ w,
  (Ok (), add_stderr line w).

(** What Pillow makes of the content of an existing file. *)
Definition decode (path : string) (f : file) : result PIL.image :=
  match f with
  | ImageFile img => inr img
  | UnreadableFile msg => inl (Exception msg)
  | XlsxFile _ =>
      inl (Exception ("cannot identify image file '" +:+ path +:+ "'"))
  end.

(** [Image.open(path).convert('L')] *)
Definition Image_open_L (path : string) : M PIL.image := λ w,
  let w' := log_call (OpenCall path) w in
  match files w !! path with
  | None =>
      (Raise (FileNotFoundError
                ("[Errno 2] No such file or directory: '" +:+ path +:+ "'")),
       w')
  | Some f => lift (decode path f) w'
  end.

(** The files after a save that failed. *)
Definition leave (path : string) (left : option file) (w : world) : world :=
  match left with
  | Some f => write_file path f w
  | None => w
  end.

(** [wb.save(path)] *)
Definition wb_save (wb : openpyxl.workbook) (path : string) : M () := λ w,
  let w' := log_call (SaveCall path) w in
  match save_error w path with
  | Some failure => (Raise (raised failure),
                     leave path (left_behind failure) w')
  | None => (Ok (), write_file path (XlsxFile wb) w')
  end.

(** The exit status of the process that runs [m]: an exception nobody
    caught ends the interpreter with status 1. *)
Definition exit_status {A} (o : outcome A) : Z :=
  match o with
  | Ok _ => 0
  | Raise _ => 1
  | Exit c => c
  end.

(** ** Loops *)

(** [range(n)] and [range(a, b)] *)
Definition range (n : Z) : list Z := seqZ 0 n.
Definition range2 (a b : Z) : list Z := seqZ a (b - a).

(** [acc = []; for x in xs: ...; acc.append(body x)] *)
Fixpoint for_append {A B} (body : A → result B) (xs : list A)
  : result (list B) :=
  match xs with
  | [] => mret []
  | x :: xs =>
      b ← body x;
      bs ← for_append body xs;
      mret (b :: bs)
  end.

(** [for x in xs: state = body(state, x)], up to the first exception *)
Fixpoint for_each {A S} (body : S → A → result S) (xs : list A) (s : S)
  : result S :=
  match xs with
  | [] => mret s
  | x :: xs => s' ← body s x; for_each body xs s'
  end.

(** [enumerate(l, start)] *)
Fixpoint enumerate {A} (start : Z) (l : list A) : list (Z * A) :=
  match l with
  | [] => []
  | x :: l => (start, x) :: enumerate (start + 1) l
  end.

(** ** Command-line arguments, as [argparse] returns them *)

Record Namespace := Build_Namespace {
  input : string;
  output : string;
  width : Z;
  height : option Z;
  threshold : Z;
  invert : bool
}.

(** What [parser.parse_args()] makes of a command line: the arguments, or
    the end of the process.  On a command line it does not accept (a
    required option missing, a width that is no integer) [argparse] prints
    the usage and the error to the error stream and exits with status 2;
    on [-h] it prints the help to the standard output and exits with
    status 0. *)
Inductive parse_result :=
| Accepted (args : Namespace)
| Rejected (usage : string)
| Help (text : string).

(** ** Strings *)


Definition newline : Ascii.ascii := Ascii.ascii_of_nat 10.

Fixpoint one_line (s : string) : bool :=
  match s with
  | EmptyString => true
  | String c s => negb (Ascii.eqb c newline) && one_line s
  end.

Fixpoint starts_with (sub s : string) : bool :=
  match sub, s with
  | EmptyString, _ => true
  | String a sub, String b s => Ascii.eqb a b && starts_with sub s
  | String _ _, EmptyString => false
  end.


(** ** The program *)

Section Program.

(** [img.resize((w, h), Image.Resampling.LANCZOS)], Pillow's own code. *)
Variable resize : PIL.image → Z → Z → result PIL.image.

(** The letter openpyxl gives a column from 1 to 18278 (A to ZZZ). *)
Variable column_letter : Z → string.

(** [argparse], on the parser lines 77-112 configure. *)
Variable parse_args : list string → parse_result.

Definition Image_resize (img : PIL.image) (w h : Z) : M PIL.image := λ st,
  lift (resize img w h) (log_call (ResizeCall w h) st).

(** Lines 13-15: the height that keeps the aspect ratio of [img]. *)
Definition derive_height (target_width : Z) (img : PIL.image) : result Z :=
  aspect_ratio ← PyFloat.int_truediv (PIL.height img) (PIL.width img);
  product ← PyFloat.int_mul_float target_width aspect_ratio;
  PyFloat.to_int product.

(** Lines 23-26: one pixel of the grid. *)
Definition classify (pixel_value threshold : Z) (invert : bool) : bool :=
  let is_black := pixel_value <? threshold in
  if invert then negb is_black else is_black.

(** Lines 19-28: the grid of the resized image. *)
Definition threshold_rows (img : PIL.image) (target_width target_height : Z)
    (threshold : Z) (invert : bool) : result (list (list bool)) :=
  for_append (λ y,
    for_append (λ x,
      pixel_value ← PIL.getpixel img x y;
      mret (classify pixel_value threshold invert))
      (range target_width))
    (range target_height).

Definition load_and_process_image (input_path : string) (target_width : Z)
    (target_height : option Z) (threshold : Z) (invert : bool)
  : M (list (list bool) * Z * Z) :=
  try_except
    (img ← Image_open_L input_path;
     target_height ←
       match target_height with
       | None => lift (derive_height target_width img)
       | Some h => mret h
       end;
     img ← Image_resize img target_width target_height;
     pixels ← lift (threshold_rows img target_width target_height
                      threshold invert);
     mret (pixels, target_width, target_height))
    (λ e,
       match e with
       | FileNotFoundError _ =>
           print_stderr ("Error: Input file '" +:+ input_path
                         +:+ "' not found.");;
           sys_exit 1
       | Exception msg =>
           print_stderr ("Error processing image: " +:+ msg);;
           sys_exit 1
       end).

Definition BLACK_CHAR : string := "█".
Definition WHITE_CHAR : string := "░".

Definition black_fill : openpyxl.PatternFill :=
  openpyxl.Build_PatternFill "000000" "000000" "solid".
Definition white_fill : openpyxl.PatternFill :=
  openpyxl.Build_PatternFill "FFFFFF" "FFFFFF" "solid".

Definition cell_size_width : Q := 2.14.
Definition cell_size_height : Z := 15.

(** Lines 53-55: the body of the inner loop over the grid. *)
Definition write_pixel (row_idx col_idx : Z) (is_black : bool)
    (ws : openpyxl.worksheet) : openpyxl.worksheet :=
  let ws := openpyxl.touch_cell row_idx col_idx ws in
  let ws :=
    openpyxl.alter_cell
      (openpyxl.set_value (if is_black then BLACK_CHAR else WHITE_CHAR))
      row_idx col_idx ws in
  openpyxl.alter_cell
    (openpyxl.set_fill (if is_black then black_fill else white_fill))
    row_idx col_idx ws.

(** Lines 51-55 *)
Definition write_pixels (pixels : list (list bool)) (ws : openpyxl.worksheet)
  : openpyxl.worksheet :=
  foldl (λ ws '(row_idx, row),
           foldl (λ ws '(col_idx, is_black),
                    write_pixel row_idx col_idx is_black ws)
             ws (enumerate 1 row))
    ws (enumerate 1 pixels).

(** [ValueError], as [cell.column_letter] raises it. *)
Definition column_index_error (col_idx : Z) : exn :=
  Exception ("Invalid column index " +:+ pretty col_idx).

(** [cell.column_letter]: openpyxl has letters for the columns 1 to 18278
    and raises [ValueError] for any other index. *)
Definition get_column_letter (col_idx : Z) : result string :=
  if (1 <=? col_idx) && (col_idx <=? 18278) then inr (column_letter col_idx)
  else inl (column_index_error col_idx).

(** Lines 61-62: the body of the loop over the columns. *)
Definition size_column (ws : openpyxl.worksheet) (col_idx : Z)
  : result openpyxl.worksheet :=
  let ws := openpyxl.touch_cell 1 col_idx ws in
  col_letter ← get_column_letter col_idx;
  mret (openpyxl.set_column_width col_letter cell_size_width ws).

(** Lines 60-62 *)
Definition size_columns (width : Z) (ws : openpyxl.worksheet)
  : result openpyxl.worksheet :=
  for_each size_column (range2 1 (width + 1)) ws.

(** Lines 64-65 *)
Definition size_rows (height : Z) (ws : openpyxl.worksheet)
  : openpyxl.worksheet :=
  foldl (λ ws row_idx, openpyxl.set_row_height row_idx cell_size_height ws)
    ws (range2 1 (height + 1)).

(** Lines 41-67: the sheet as it is when [wb.save] is called, or the
    exception that ends the function before. *)
Definition render_sheet (pixels : list (list bool)) (width height : Z)
  : result openpyxl.worksheet :=
  let ws := openpyxl.set_title "Pixel Art" openpyxl.new_sheet in
  let ws := write_pixels pixels ws in
  ws ← size_columns width ws;
  let ws := size_rows height ws in
  mret (openpyxl.set_showGridLines false ws).

(** Lines 41-67 are outside the [try]: an exception there leaves the
    function. *)
Definition create_pixel_art_excel (pixels : list (list bool))
    (output_path : string) (width height : Z) : M () :=
  ws ← lift (render_sheet pixels width height);
  let wb := openpyxl.Workbook ws in
  try_except (wb_save wb output_path)
    (λ e,
       print_stderr ("Error saving Excel file: " +:+ str e);;
       sys_exit 1).

Definition width_error : string := "Error: Width must be positive.".
Definition height_error : string := "Error: Height must be positive.".
Definition threshold_error : string :=
  "Error: Threshold must be between 0 and 255.".

Definition when (b : bool) (m : M ()) : M () := if b then m else mret ().

(** Lines 76-114: [parse_arguments], which returns what [argparse] accepts
    and does not return otherwise. *)
Definition parse_arguments (argv : list string) : M Namespace := λ w,
  match parse_args argv with
  | Accepted args => (Ok args, w)
  | Rejected usage => (Exit 2, add_stderr usage w)
  | Help text => (Exit 0, add_stdout text w)
  end.

(** Lines 121-145: [main], from the parsed arguments on. *)
Definition main (args : Namespace) : M () :=
  when (width args <=? 0) (print_stderr width_error;; sys_exit 1);;
  when (match height args with Some h => h <=? 0 | None => false end)
    (print_stderr height_error;; sys_exit 1);;
  when (negb ((0 <=? threshold args) && (threshold args <=? 255)))
    (print_stderr threshold_error;; sys_exit 1);;
  print ("Loading and processing image: " +:+ input args);;
  '(pixels, final_width, final_height) ←
    load_and_process_image (input args) (width args) (height args)
      (threshold args) (invert args);
  print ("Creating Excel file: " +:+ output args);;
  create_pixel_art_excel pixels (output args) final_width final_height;;
  print_check_mark
    ("✓ Success! Created " +:+ pretty final_width +:+ "x"
     +:+ pretty final_height +:+ " pixel art in " +:+ output args).

(** The exit status and the final world of a run. *)
Definition run (args : Namespace) (w : world) : Z * world :=
  let '(o, w') := main args w in (exit_status o, w').

(** Lines 117-149: the script, from its command line on. *)
Definition script (argv : list string) : M () :=
  args ← parse_arguments argv;
  main args.

Definition run_script (argv : list string) (w : world) : Z * world :=
  let '(o, w') := script argv w in (exit_status o, w').

(** ** Vocabulary of the statements *)

(** The height the loader resizes to: the explicit one, or the derived. *)
Definition resolved_height (W : Z) (H : option Z) (img : PIL.image)
  : result Z :=
  match H with
  | None => derive_height W img
  | Some h => inr h
  end.

(** The line the loader prints for an exception. *)
Definition loader_message (input_path : string) (e : exn) : string :=
  match e with
  | FileNotFoundError _ => "Error: Input file '" +:+ input_path +:+ "' not found."
  | Exception msg => "Error processing image: " +:+ msg
  end.

Definition complement_grid (r : list (list bool) * Z * Z)
  : list (list bool) * Z * Z :=
  let '(pixels, w, h) := r in (map (map negb) pixels, w, h).

Definition outcome_map {A B} (f : A → B) (o : outcome A) : outcome B :=
  match o with
  | Ok a => Ok (f a)
  | Raise e => Raise e
  | Exit c => Exit c
  end.

(** The cell of a dark and of a light pixel. *)
Definition painted (is_black : bool) : openpyxl.cell :=
  openpyxl.Cell (Some (if is_black then BLACK_CHAR else WHITE_CHAR))
    (Some (if is_black then black_fill else white_fill)).

(** The grid entry behind the cell at the 1-indexed [(r, c)]. *)
Definition grid_at (pixels : list (list bool)) (r c : Z) : option bool :=
  if decide (1 ≤ r ∧ 1 ≤ c)
  then row ← pixels !! Z.to_nat (r - 1); row !! Z.to_nat (c - 1)
  else None.

(** The arguments [main] lets through. *)
Definition valid_args (args : Namespace) : Prop :=
  0 < width args
  ∧ (∀ h, height args = Some h → 0 < h)
  ∧ 0 ≤ threshold args ≤ 255.

Definition valid_argsb (args : Namespace) : bool :=
  (0 <? width args)
  && match height args with Some h => 0 <? h | None => true end
  && (0 <=? threshold args) && (threshold args <=? 255).

(** The ways a run fails: the four the specification names, and an
    exception that no handler catches. *)
Inductive failure :=
| ValidationError
| InputNotFound
| ImageProcessingError
| OutputWriteError
| UncaughtException.

Definition loading_line (args : Namespace) : string :=
  "Loading and processing image: " +:+ input args.

Definition failure_of (args : Namespace) (w : world) : option failure :=
  if negb (valid_argsb args) then Some ValidationError
  else
    match files w !! input args with
    | None => Some InputNotFound
    | Some f =>
        match (img ← decode (input args) f;
               h ← resolved_height (width args) (height args) img;
               resized ← resize img (width args) h;
               threshold_rows resized (width args) h (threshold args)
                 (invert args)) with
        | inl _ => Some ImageProcessingError
        | inr _ =>
            if 18278 <? width args then Some UncaughtException
            else
              match save_error w (output args) with
              | Some _ => Some OutputWriteError
              | None =>
                  match check_mark_error w with
                  | Some _ => Some UncaughtException
                  | None => None
                  end
              end
        end
    end.


Definition creating_line (args : Namespace) : string :=
  "Creating Excel file: " +:+ output args.

Definition success_line (args : Namespace) (final_width final_height : Z)
  : string :=
  "✓ Success! Created " +:+ pretty final_width +:+ "x"
  +:+ pretty final_height +:+ " pixel art in " +:+ output args.

(** "With no explicit height, the resolved height is the floor of
    [W * Hn / Wn]." *)
Definition height_is_floor (W : Z) (img : PIL.image) : Prop :=
  resolved_height W None img = inr (W * PIL.height img / PIL.width img).

(** The line [create_pixel_art_excel] prints when [wb.save] raises [e]. *)
Definition save_error_line (e : exn) : string :=
  "Error saving Excel file: " +:+ str e.

(** Lines 142-145, case by case: [main] after the loader has returned
    the grid, in the world [w2]. *)
Definition after_load (args : Namespace) (pixels : list (list bool))
    (final_width final_height : Z) (w2 : world) : outcome () * world :=
  let w3 := add_stdout (creating_line args) w2 in
  match render_sheet pixels final_width final_height with
  | inl e => (Raise e, w3)
  | inr ws =>
      let w4 := log_call (SaveCall (output args)) w3 in
      match save_error w2 (output args) with
      | Some failure =>
          (Exit 1,
           add_stderr (save_error_line (raised failure))
             (leave (output args) (left_behind failure) w4))
      | None =>
          let w5 :=
            write_file (output args) (XlsxFile (openpyxl.Workbook ws)) w4 in
          match check_mark_error w2 with
          | Some e => (Raise e, w5)
          | None =>
              (Ok (), add_stdout (success_line args final_width final_height) w5)
          end
      end
  end.

(** The sheet lines 41-67 build when every column has its letter. *)
Definition built_sheet (pixels : list (list bool)) (width height : Z)
  : openpyxl.worksheet :=
  let ws := openpyxl.set_title "Pixel Art" openpyxl.new_sheet in
  let ws := write_pixels pixels ws in
  let ws :=
    foldl (λ ws col_idx,
             openpyxl.set_column_width (column_letter col_idx)
               cell_size_width (openpyxl.touch_cell 1 col_idx ws))
      ws (range2 1 (width + 1)) in
  let ws := size_rows height ws in
  openpyxl.set_showGridLines false ws.




(** Lines 20-23: the intensities the two loops read, row by row. *)
Definition pixel_values (img : PIL.image) (target_width target_height : Z)
  : result (list (list Z)) :=
  for_append (λ y,
    for_append (λ x, PIL.getpixel img x y) (range target_width))
    (range target_height).

(** The arguments [args] with [--invert] given or not. *)
Definition with_invert (b : bool) (args : Namespace) : Namespace :=
  Build_Namespace (input args) (output args) (width args) (height args)
    (threshold args) b.

(** What [print] raises on a standard output that cannot encode U+2713. *)
Definition UnicodeEncodeError : exn :=
  Exception "'ascii' codec can't encode character '\u2713' in position 0: ordinal not in range(128)".

End Program.

Arguments after_load : simpl never.

(** ** Sample inputs *)

(** An instance of the resampling: nearest neighbour, refusing an empty
    target size as Pillow does. *)
Definition nearest_resize (img : PIL.image) (w h : Z) : result PIL.image :=
  if (w <? 1) || (h <? 1)
  then inl (Exception "height and width must be > 0")
  else inr (PIL.Image w h
              (λ x y, PIL.data img (x * PIL.width img / w)
                        (y * PIL.height img / h))).

(** An instance of the column letters: A, ..., Z, AA, ..., ZZZ. *)
Fixpoint letters (digits : nat) (n : Z) : string :=
  match digits with
  | O => ""
  | S digits =>
      if n <=? 0 then ""
      else letters digits ((n - 1) / 26)
           +:+ String (Ascii.ascii_of_N (Z.to_N (65 + (n - 1) mod 26))) ""
  end.

Definition A1_column_letter (c : Z) : string := letters 3 c.

(** A 2x2 image, dark on the diagonal. *)
Definition diagonal_image : PIL.image :=
  PIL.Image 2 2 (λ x y, if x =? y then 10 else 255).

Definition diagonal_grid : list (list bool) :=
  [[true; false]; [false; true]].

(** A 49x1 image. *)
Definition strip_image : PIL.image := PIL.Image 49 1 (λ _ _, 0).

(** Two images, a standard output that encodes U+2713, and an output path
    that cannot be opened for writing. *)
Definition sample_world : world :=
  World {[ "in.png" := ImageFile diagonal_image;
           "strip.png" := ImageFile strip_image ]}
    (λ path, if String.eqb path "locked.xlsx"
             then Some (SaveFailure
                          (Exception
                             "[Errno 13] Permission denied: 'locked.xlsx'")
                          None)
             else None)
    None [] [] [].

(** The same, with a standard output in ASCII. *)
Definition ascii_world : world :=
  World (files sample_world) (save_error sample_world)
    (Some UnicodeEncodeError) [] [] [].

(** [argparse] on three kinds of command line: the three required options
    in the order of the usage, with a width of 2; [-h] alone; and the empty
    one, which lacks the required options.  Any other command line is left
    to the error exit. *)
Definition sample_parse_args (argv : list string) : parse_result :=
  match argv with
  | [o1; i; o2; o; o3; n] =>
      if String.eqb o1 "--input" && String.eqb o2 "--output"
         && String.eqb o3 "--width" && String.eqb n "2"
      then Accepted (Build_Namespace i o 2 None 128 false)
      else Rejected "mvp_pixel_excel.py: error: unrecognized arguments"
  | [h] =>
      if String.eqb h "-h"
      then Help "usage: mvp_pixel_excel.py [-h] --input INPUT --output OUTPUT --width WIDTH [--height HEIGHT] [--threshold THRESHOLD] [--invert]"
      else Rejected "mvp_pixel_excel.py: error: the following arguments are required: --input, --output, --width"
  | _ =>
      Rejected "mvp_pixel_excel.py: error: the following arguments are required: --input, --output, --width"
  end.

Definition sample_args : Namespace :=
  Build_Namespace "in.png" "out.xlsx" 2 None 128 false.

(** No positive width, and an input path that names no file. *)
Definition zero_width_args : Namespace :=
  Build_Namespace "missing.png" "out.xlsx" 0 None 128 false.

Definition missing_input_args : Namespace :=
  Build_Namespace "missing.png" "out.xlsx" 2 None 128 false.

(** The 49x1 image at its own width, and at a fifth of it. *)
Definition strip_args : Namespace :=
  Build_Namespace "strip.png" "out.xlsx" 49 None 128 false.


(** An output path that cannot be written. *)
Definition locked_output_args : Namespace :=
  Build_Namespace "in.png" "locked.xlsx" 2 None 128 false.

(** A 2x6 image, three times as high as it is wide: dark above, light
    below. *)
Definition tall_image : PIL.image :=
  PIL.Image 2 6 (λ x y, if y <? 3 then 10 else 255).

(** An image without columns. *)
Definition empty_image : PIL.image := PIL.Image 0 4 (λ _ _, 0).

Definition edge_world : world :=
  World {[ "tall.png" := ImageFile tall_image;
           "empty.png" := ImageFile empty_image ]}
    (λ _, None) None [] [] [].

(** Rows of different lengths. *)
Definition ragged_grid : list (list bool) := [[true]; [false; true; true]].

(** Arguments that fail every check, the last two checks, the last one. *)
Definition all_invalid_args : Namespace :=
  Build_Namespace "missing.png" "out.xlsx" 0 (Some 0) 999 false.

Definition bad_height_args : Namespace :=
  Build_Namespace "missing.png" "out.xlsx" 2 (Some 0) 999 false.

Definition bad_threshold_args : Namespace :=
  Build_Namespace "missing.png" "out.xlsx" 2 None 999 false.





(** * Properties *)

(** ** Loops that append *)

Lemma for_append_length {A B} (body : A → result B) xs bs :
  for_append body xs = inr bs → length bs = length xs.
Proof.
  revert bs. induction xs as [|x xs IH]; intros bs; simpl.
  - intros [= <-]. done.
  - unfold mbind, result_mbind, mret, result_ret; simpl.
    destruct (body x) as [e|b]; simpl; [done|].
    destruct (for_append body xs) as [e|bs']; simpl; [done|].
    intros [= <-]. simpl. f_equal. by apply IH.
Qed.

Lemma for_append_lookup {A B} (body : A → result B) xs bs i x :
  for_append body xs = inr bs → xs !! i = Some x →
  ∃ b, bs !! i = Some b ∧ body x = inr b.
Proof.
  revert bs i. induction xs as [|x0 xs IH]; intros bs i; simpl; [done|].
  unfold mbind, result_mbind, mret, result_ret; simpl.
  destruct (body x0) as [e|b0] eqn:Hb; simpl; [done|].
  destruct (for_append body xs) as [e|bs'] eqn:Hbs; simpl; [done|].
  intros [= <-]. destruct i as [|i]; simpl.
  - intros [= <-]. eauto.
  - intros Hx. by apply IH.
Qed.

Lemma for_append_ext {A B} (f g : A → result B) xs :
  (∀ x, x ∈ xs → f x = g x) → for_append f xs = for_append g xs.
Proof.
  induction xs as [|x xs IH]; intros Hfg; simpl; [done|].
  rewrite Hfg by (apply elem_of_cons; by left). rewrite IH; [done|].
  intros y Hy. apply Hfg, elem_of_cons. by right.
Qed.

(** Post-processing every element is post-processing the list. *)
Lemma for_append_map {A B C} (body : A → result B) (g : B → C) xs :
  for_append (λ x, b ← body x; mret (g b)) xs
  = (bs ← for_append body xs; mret (map g bs)).
Proof.
  induction xs as [|x xs IH]; simpl; [done|].
  rewrite IH. unfold mbind, result_mbind, mret, result_ret; simpl.
  destruct (body x) as [e|b]; simpl; [done|].
  by destruct (for_append body xs).
Qed.

Lemma range_lookup (n i : Z) :
  0 ≤ i < n → range n !! Z.to_nat i = Some i.
Proof.
  intros Hi. unfold range. rewrite lookup_seqZ_lt by lia. f_equal. lia.
Qed.

Lemma range_length (n : Z) : length (range n) = Z.to_nat n.
Proof. apply length_seqZ. Qed.

Lemma elem_of_range2 (a b i : Z) : i ∈ range2 a b ↔ a ≤ i < b.
Proof. unfold range2. rewrite elem_of_seqZ. lia. Qed.

Lemma elem_of_range (n i : Z) : i ∈ range n ↔ 0 ≤ i < n.
Proof. unfold range. rewrite elem_of_seqZ. lia. Qed.

(** A body that never raises gives the list of its values. *)
Lemma for_append_total {A B} (body : A → result B) (g : A → B) xs :
  (∀ x, x ∈ xs → body x = inr (g x)) → for_append body xs = inr (map g xs).
Proof.
  induction xs as [|x xs IH]; intros Hbody; simpl; [done|].
  rewrite Hbody by (apply elem_of_cons; by left).
  rewrite IH; [done|].
  intros y Hy. apply Hbody, elem_of_cons. by right.
Qed.

Lemma for_each_app {A S} (body : S → A → result S) xs ys s :
  for_each body (xs ++ ys) s
  = (s' ← for_each body xs s; for_each body ys s').
Proof.
  revert s. induction xs as [|x xs IH]; intros s; simpl; [done|].
  unfold mbind, result_mbind, result_bind.
  destruct (body s x) as [e|s']; [done|]. apply IH.
Qed.

(** ** Strings *)




(** ** Binary64 arithmetic *)

(** *** Shifting right and rounding *)

(** One step to the right halves the mantissa and remembers what it drops. *)
Lemma shr_1_halves m r s :
  0 ≤ m →
  shr_1 (Build_shr_record m r s) = Build_shr_record (m / 2) (Z.odd m) (r || s).
Proof.
  intros Hm. rewrite <- Z.div2_div.
  destruct m as [|[p|p|]|p]; try done; lia.
Qed.

Lemma loc_of_shr_record_of_loc m l :
  loc_of_shr_record (shr_record_of_loc m l) = l.
Proof. by destruct l as [|[]]. Qed.

Lemma shr_m_of_loc m l : shr_m (shr_record_of_loc m l) = m.
Proof. by destruct l as [|[]]. Qed.

(** Shifting the quotient [N / D] with its position by one bit gives the
    quotient [N / (2 * D)] with its position. *)
Lemma shr_1_spec N D :
  0 ≤ N → 0 < D →
  shr_1 (shr_record_of_loc (N / D) (loc_of (N mod D) D))
  = shr_record_of_loc (N / (D * 2)) (loc_of (N mod (D * 2)) (D * 2)).
Proof.
  intros HN HD.
  pose proof (Z.mod_pos_bound N D HD) as Hrho.
  assert (0 ≤ N / D) as Hm by (apply Z.div_pos; lia).
  rewrite Z.rem_mul_r by lia. rewrite <- Z.div_div by lia.
  revert Hm Hrho. generalize (N / D) (N mod D). clear N HN.
  intros m rho Hm Hrho.
  assert (shr_record_of_loc m (loc_of rho D)
          = Build_shr_record m (negb (rho =? 0) && (D <=? 2 * rho))
              (negb (rho =? 0) && negb (2 * rho =? D))) as ->.
  { unfold loc_of. destruct (Z.eqb_spec rho 0) as [->|Hne]; simpl.
    - done.
    - destruct (Z.compare_spec (2 * rho) D); simpl.
      + rewrite (proj2 (Z.leb_le _ _)) by lia.
        by rewrite (proj2 (Z.eqb_eq _ _)) by lia.
      + rewrite (proj2 (Z.leb_gt _ _)) by lia.
        by rewrite (proj2 (Z.eqb_neq _ _)) by lia.
      + rewrite (proj2 (Z.leb_le _ _)) by lia.
        by rewrite (proj2 (Z.eqb_neq _ _)) by lia. }
  rewrite shr_1_halves by done.
  assert ((negb (rho =? 0) && (D <=? 2 * rho)
           || negb (rho =? 0) && negb (2 * rho =? D)) = negb (rho =? 0))
    as ->.
  { destruct (Z.eqb_spec rho 0); simpl; [done|].
    destruct (Z.leb_spec D (2 * rho)); simpl; [done|].
    by rewrite (proj2 (Z.eqb_neq _ _)) by lia. }
  pose proof (Z.mod_pos_bound m 2 ltac:(lia)) as Hbit.
  rewrite (Zodd_mod m). unfold loc_of.
  destruct (Z.eqb_spec (m mod 2) 1) as [Hodd|Heven].
  - rewrite Hodd. simpl negb.
    rewrite (proj2 (Z.eqb_neq (rho + D * 1) 0)) by lia.
    destruct (Z.eqb_spec rho 0) as [->|Hne]; simpl.
    + by replace (2 * (0 + D * 1) ?= D * 2) with Eq
        by (symmetry; apply Z.compare_eq_iff; lia).
    + by replace (2 * (rho + D * 1) ?= D * 2) with Gt
        by (symmetry; apply Z.compare_gt_iff; lia).
  - assert (m mod 2 = 0) as -> by lia.
    rewrite Z.mul_0_r, Z.add_0_r. simpl negb.
    destruct (Z.eqb_spec rho 0) as [->|Hne]; simpl; [done|].
    by replace (2 * rho ?= D * 2) with Lt
      by (symmetry; apply Z.compare_lt_iff; lia).
Qed.

Lemma pow2_xI n : 2 ^ Z.pos n~1 = 2 * 2 ^ Z.pos n * 2 ^ Z.pos n.
Proof.
  rewrite (Pos2Z.inj_xI n).
  replace (2 * Z.pos n + 1) with (1 + Z.pos n + Z.pos n) by lia.
  by rewrite !Z.pow_add_r, Z.pow_1_r by lia.
Qed.

Lemma pow2_xO n : 2 ^ Z.pos n~0 = 2 ^ Z.pos n * 2 ^ Z.pos n.
Proof.
  rewrite (Pos2Z.inj_xO n).
  replace (2 * Z.pos n) with (Z.pos n + Z.pos n) by lia.
  by rewrite !Z.pow_add_r by lia.
Qed.

(** So [n] steps divide by [2 ^ n]. *)
Lemma shr_iter_spec N D (n : positive) :
  0 ≤ N → 0 < D →
  SpecFloat.iter_pos shr_1 n (shr_record_of_loc (N / D) (loc_of (N mod D) D))
  = shr_record_of_loc (N / (D * 2 ^ Z.pos n))
      (loc_of (N mod (D * 2 ^ Z.pos n)) (D * 2 ^ Z.pos n)).
Proof.
  intros HN. revert D.
  assert (∀ k, 0 < 2 ^ Z.pos k) as Hpow by (intros; by apply Z.pow_pos_nonneg).
  induction n as [n IH|n IH|]; intros D HD; cbn [SpecFloat.iter_pos].
  - pose proof (Hpow n).
    rewrite shr_1_spec, IH, IH by nia.
    rewrite pow2_xI. by rewrite !Z.mul_assoc.
  - pose proof (Hpow n).
    rewrite IH, IH by nia.
    rewrite pow2_xO. by rewrite !Z.mul_assoc.
  - rewrite shr_1_spec by lia. by rewrite Z.pow_1_r.
Qed.

(** The number of binary digits. *)
Lemma digits2_pos_size p : digits2_pos p = Pos.size p.
Proof. induction p; simpl; congruence. Qed.

Lemma Zdigits2_bounds m :
  0 < m → 2 ^ (Zdigits2 m - 1) ≤ m < 2 ^ Zdigits2 m.
Proof.
  intros Hm. destruct m as [|p|p]; try lia. simpl.
  rewrite digits2_pos_size. split.
  - pose proof (Pos.size_le p) as Hle.
    assert (2 ^ Z.pos (Pos.size p) ≤ 2 * Z.pos p) as Hle'.
    { rewrite <- Pos2Z.inj_pow. change 2 with (Z.pos 2).
      rewrite <- Pos2Z.inj_mul. by apply Pos2Z.pos_le_pos. }
    replace (Z.pos (Pos.size p)) with (Z.pos (Pos.size p) - 1 + 1) in Hle'
      by lia.
    rewrite Z.pow_add_r, Z.pow_1_r in Hle' by lia. lia.
  - pose proof (Pos.size_gt p) as Hgt.
    rewrite <- Pos2Z.inj_pow. by apply Pos2Z.pos_lt_pos.
Qed.

Lemma Zdigits2_pos m : 0 < m → 0 < Zdigits2 m.
Proof. destruct m; simpl; lia. Qed.

(** The number of digits is characterised by its bounds. *)
Lemma Zdigits2_unique m d :
  0 < d → 2 ^ (d - 1) ≤ m < 2 ^ d → Zdigits2 m = d.
Proof.
  intros Hd [Hlo Hhi].
  assert (0 < m) as Hm by (pose proof (Z.pow_pos_nonneg 2 (d - 1)); lia).
  destruct (Zdigits2_bounds m Hm) as [Hlo' Hhi'].
  pose proof (Zdigits2_pos m Hm) as Hpos.
  destruct (Z.lt_trichotomy (Zdigits2 m) d) as [Hlt|[Heq|Hgt]]; [|done|].
  - assert (2 ^ Zdigits2 m ≤ 2 ^ (d - 1)) by (apply Z.pow_le_mono_r; lia).
    lia.
  - assert (2 ^ d ≤ 2 ^ (Zdigits2 m - 1)) by (apply Z.pow_le_mono_r; lia).
    lia.
Qed.

Lemma Zdigits2_le m k : 0 < m → 0 ≤ k → m < 2 ^ k → Zdigits2 m ≤ k.
Proof.
  intros Hm Hk Hlt. destruct (Zdigits2_bounds m Hm) as [Hlo _].
  pose proof (Zdigits2_pos m Hm).
  destruct (Z.le_gt_cases (Zdigits2 m) k) as [|Hgt]; [done|].
  assert (2 ^ k ≤ 2 ^ (Zdigits2 m - 1)) by (apply Z.pow_le_mono_r; lia).
  lia.
Qed.

Lemma Zdigits2_ge m k : 0 < k → 2 ^ (k - 1) ≤ m → k ≤ Zdigits2 m.
Proof.
  intros Hk Hle.
  assert (0 < m) as Hm by (pose proof (Z.pow_pos_nonneg 2 (k - 1)); lia).
  destruct (Zdigits2_bounds m Hm) as [_ Hhi].
  pose proof (Zdigits2_pos m Hm).
  destruct (Z.le_gt_cases k (Zdigits2 m)) as [|Hgt]; [done|].
  assert (2 ^ Zdigits2 m ≤ 2 ^ (k - 1)) by (apply Z.pow_le_mono_r; lia).
  lia.
Qed.

Lemma shr_spec N D e n :
  0 ≤ N → 0 < D →
  shr (shr_record_of_loc (N / D) (loc_of (N mod D) D)) e n
  = (shr_record_of_loc (N / (D * 2 ^ Z.max 0 n))
       (loc_of (N mod (D * 2 ^ Z.max 0 n)) (D * 2 ^ Z.max 0 n)),
     e + Z.max 0 n).
Proof.
  intros HN HD. unfold shr. destruct n as [|p|p].
  - by rewrite Z.max_id, Z.pow_0_r, Z.mul_1_r, Z.add_0_r.
  - rewrite shr_iter_spec by done. by rewrite Z.max_r by lia.
  - rewrite Z.max_l by lia. by rewrite Z.pow_0_r, Z.mul_1_r, Z.add_0_r.
Qed.

Lemma fexp_normal e : -1074 ≤ e - 53 → fexp 53 1024 e = e - 53.
Proof. intros He. unfold fexp, emin. lia. Qed.

Lemma shr_fexp_spec N D e :
  0 < D → D ≤ N →
  -1074 ≤ Zdigits2 (N / D) + e - 53 →
  shr_fexp 53 1024 (N / D) e (loc_of (N mod D) D)
  = let n := Z.max 0 (Zdigits2 (N / D) - 53) in
    (shr_record_of_loc (N / (D * 2 ^ n))
       (loc_of (N mod (D * 2 ^ n)) (D * 2 ^ n)),
     e + n).
Proof.
  intros HD HN Hnormal. unfold shr_fexp.
  rewrite fexp_normal by lia. rewrite shr_spec by lia.
  by replace (Zdigits2 (N / D) + e - 53 - e) with (Zdigits2 (N / D) - 53)
    by lia.
Qed.

(** Rounding to nearest even moves the quotient by at most a half. *)
Lemma round_nearest_even_spec N D :
  0 ≤ N → 0 < D →
  let m := round_nearest_even (N / D) (loc_of (N mod D) D) in
  N / D ≤ m ≤ N / D + 1
  ∧ Z.abs (2 * (m * D - N)) ≤ D
  ∧ (N mod D = 0 → m = N / D).
Proof.
  intros HN HD.
  pose proof (Z.mod_pos_bound N D HD) as Hrho.
  pose proof (Z.div_mod N D ltac:(lia)) as Hdiv.
  revert Hrho Hdiv. generalize (N / D) (N mod D). intros q rho Hrho Hdiv.
  unfold loc_of, round_nearest_even.
  destruct (Z.eqb_spec rho 0) as [->|Hne]; simpl.
  { repeat split; lia. }
  destruct (Z.compare_spec (2 * rho) D) as [Heq|Hlt|Hgt].
  - destruct (Z.even q); repeat split; lia.
  - repeat split; lia.
  - repeat split; lia.
Qed.

Lemma shr_fexp_exact m e :
  0 < m → -1074 ≤ Zdigits2 m + e - 53 →
  shr_fexp 53 1024 m e loc_Exact
  = let n := Z.max 0 (Zdigits2 m - 53) in
    (shr_record_of_loc (m / 2 ^ n) (loc_of (m mod 2 ^ n) (2 ^ n)), e + n).
Proof.
  intros Hm Hnormal.
  pose proof (shr_fexp_spec m 1 e ltac:(lia) ltac:(lia)) as Hspec.
  rewrite Z.div_1_r, Z.mod_1_r in Hspec.
  change (loc_of 0 1) with loc_Exact in Hspec. rewrite Hspec by done.
  simpl. by rewrite Z.mul_1_l.
Qed.

(** The rounding of [SpecFloat], away from the subnormal numbers and from
    overflow: from the quotient [N / D] at exponent [ex] it returns a
    mantissa [m] below 2^53 at exponent [ex + n] whose value is within
    half a unit in the last place of [N / D * 2 ^ ex]; a quotient of at
    least 53 bits gives a full mantissa, and an exact quotient of at most
    53 bits is returned as it is.  The sharp form also says that the half
    unit is one of the first shift. *)
Lemma binary_round_aux_sharp N D ex :
  0 < D → D ≤ N →
  -1074 ≤ Zdigits2 (N / D) + ex - 53 →
  Zdigits2 (N / D) + ex ≤ 1023 → ex ≤ 970 →
  ∃ (m : positive) (n : Z),
    binary_round_aux 53 1024 false (N / D) ex (loc_of (N mod D) D)
    = S754_finite false m (ex + n)
    ∧ 0 ≤ n ≤ Z.max 0 (Zdigits2 (N / D) - 53) + 1
    ∧ Z.abs (2 * (Z.pos m * 2 ^ n * D - N)) ≤ D * 2 ^ n
    ∧ Z.max 0 (Zdigits2 (N / D) - 53) ≤ n
    ∧ Z.abs (2 * (Z.pos m * 2 ^ n * D - N))
      ≤ D * 2 ^ Z.max 0 (Zdigits2 (N / D) - 53)
    ∧ Z.pos m < 2 ^ 53
    ∧ (53 ≤ Zdigits2 (N / D) → 2 ^ 52 ≤ Z.pos m)
    ∧ (N mod D = 0 → Zdigits2 (N / D) ≤ 53 → n = 0 ∧ Z.pos m = N / D).
Proof.
  intros HD HN Hnormal Hmax Hex.
  assert (0 < N / D) as Hq by (apply Z.div_str_pos; lia).
  destruct (Zdigits2_bounds _ Hq) as [Hlo Hhi].
  pose proof (Zdigits2_pos _ Hq) as Hdpos.
  set (d := Zdigits2 (N / D)) in *.
  set (n1 := Z.max 0 (d - 53)).
  assert (0 < 2 ^ n1) as Hpow1 by (apply Z.pow_pos_nonneg; lia).
  set (D1 := D * 2 ^ n1).
  assert (0 < D1) as HD1 by (unfold D1; nia).
  set (m1 := N / D1).
  assert (m1 = N / D / 2 ^ n1) as Hm1 by (unfold m1, D1; by rewrite Z.div_div by lia).
  assert (1 ≤ m1 < 2 ^ 53 ∧ (53 ≤ d → 2 ^ 52 ≤ m1)) as (Hm1bounds & Hm1big).
  { destruct (Z.le_gt_cases d 53) as [Hsmall|Hbig].
    - assert (n1 = 0) as Hn1 by lia. rewrite Hm1, Hn1, Z.pow_0_r, Z.div_1_r.
      assert (2 ^ d ≤ 2 ^ 53) by (apply Z.pow_le_mono_r; lia).
      repeat split; try lia. intros ?. by replace 52 with (d - 1) by lia.
    - assert (n1 = d - 53) as Hn1 by lia.
      assert (2 ^ (d - 1) = 2 ^ 52 * 2 ^ n1) as Hsplit1.
      { rewrite <- Z.pow_add_r by lia. f_equal. lia. }
      assert (2 ^ d = 2 ^ 53 * 2 ^ n1) as Hsplit2.
      { rewrite <- Z.pow_add_r by lia. f_equal. lia. }
      assert (2 ^ 52 ≤ m1).
      { rewrite Hm1. apply Z.div_le_lower_bound; lia. }
      assert (m1 < 2 ^ 53).
      { rewrite Hm1. apply Z.div_lt_upper_bound; lia. }
      repeat split; lia. }
  destruct (round_nearest_even_spec N D1 ltac:(lia) HD1)
    as (Hm2range & Hm2err & Hm2exact).
  fold m1 in Hm2range, Hm2err, Hm2exact.
  set (m2 := round_nearest_even m1 (loc_of (N mod D1) D1)) in *.
  set (n2 := Z.max 0 (Zdigits2 m2 - 53)).
  assert (0 < m2 ≤ 2 ^ 53) as Hm2bounds by lia.
  assert ((n2 = 0 ∧ m2 < 2 ^ 53) ∨ (n2 = 1 ∧ m2 = 2 ^ 53)) as Hn2.
  { destruct (Z.eq_dec m2 (2 ^ 53)) as [Heq|Hne].
    - right. split; [|done]. unfold n2. rewrite Heq. reflexivity.
    - left. split; [|lia]. unfold n2.
      assert (Zdigits2 m2 ≤ 53) by (apply Zdigits2_le; lia). lia. }
  assert (d ≤ 53 → Zdigits2 m1 = d) as Hdm1.
  { intros Hsmall. unfold m1, D1.
    replace n1 with 0 by lia. by rewrite Z.pow_0_r, Z.mul_1_r. }
  assert (-1074 ≤ ex + n1) as He1.
  { destruct (Z.le_gt_cases d 53); lia. }
  assert (0 < Zdigits2 m2) as Hd2pos by (apply Zdigits2_pos; lia).
  set (m3 := m2 / 2 ^ n2).
  assert (m3 * 2 ^ n2 = m2 ∧ 0 < m3 < 2 ^ 53 ∧ (2 ^ 52 ≤ m1 → 2 ^ 52 ≤ m3))
    as (Hm3 & Hm3bounds & Hm3big).
  { unfold m3. destruct Hn2 as [[-> ?]|[-> ->]].
    - rewrite Z.pow_0_r, Z.div_1_r. lia.
    - change (2 ^ 53 / 2 ^ 1) with (2 ^ 52). lia. }
  assert (ex + n1 + n2 ≤ 971) as Hfin.
  { destruct (Z.le_gt_cases d 53); lia. }
  destruct m3 as [|m|m] eqn:Hm3eq; try lia.
  assert (binary_round_aux 53 1024 false (N / D) ex (loc_of (N mod D) D)
          = S754_finite false m (ex + n1 + n2)) as Hbra.
  { unfold binary_round_aux.
    rewrite shr_fexp_spec by (fold d; lia).
    cbv beta iota zeta.
    rewrite shr_m_of_loc, loc_of_shr_record_of_loc.
    change (shr_fexp 53 1024 _ _ loc_Exact)
      with (shr_fexp 53 1024 m2 (ex + n1) loc_Exact).
    rewrite shr_fexp_exact; [|lia|].
    2:{ assert (Zdigits2 m1 ≤ Zdigits2 m2).
        { apply Zdigits2_ge; [apply Zdigits2_pos; lia|].
          destruct (Zdigits2_bounds m1 ltac:(lia)). lia. }
        destruct (Z.le_gt_cases d 53) as [Hsmall|Hbig].
        - rewrite <- (Hdm1 Hsmall) in Hnormal. lia.
        - assert (53 ≤ Zdigits2 m1); [|lia].
          apply Zdigits2_ge; [lia|]. apply Hm1big. lia. }
    cbv beta iota zeta. rewrite shr_m_of_loc.
    change (m2 / 2 ^ (Z.max 0 (Zdigits2 m2 - 53))) with m3.
    change (Z.max 0 (Zdigits2 m2 - 53)) with n2.
    rewrite Hm3eq.
    by rewrite (proj2 (Z.leb_le _ _)) by (simpl; lia). }
  exists m, (n1 + n2). rewrite Z.add_assoc. split; [done|].
  assert (0 < 2 ^ n2) as Hpow2 by (apply Z.pow_pos_nonneg; lia).
  assert (Z.pos m * 2 ^ (n1 + n2) * D = m2 * D1) as Hval.
  { rewrite Z.pow_add_r by lia. unfold D1. rewrite <- Hm3. ring. }
  repeat split.
  - lia.
  - fold n1. lia.
  - rewrite Hval.
    assert (D1 ≤ D * 2 ^ (n1 + n2)); [|lia].
    rewrite Z.pow_add_r by lia. unfold D1. nia.
  - fold n1. lia.
  - rewrite Hval. fold n1. fold D1. lia.
  - lia.
  - intros Hbig. apply Hm3big. by apply Hm1big.
  - assert (n1 = 0) as Hn1 by lia.
    assert (D1 = D) as HD1eq by (unfold D1; rewrite Hn1; lia).
    rewrite HD1eq in *. specialize (Hm2exact H).
    assert (m2 < 2 ^ 53).
    { rewrite Hm2exact. unfold m1. rewrite HD1eq.
      assert (2 ^ d ≤ 2 ^ 53) by (apply Z.pow_le_mono_r; lia). lia. }
    destruct Hn2 as [[-> ?]|[? ?]]; lia.
  - assert (n1 = 0) as Hn1 by lia.
    assert (D1 = D) as HD1eq by (unfold D1; rewrite Hn1; lia).
    specialize (Hm2exact ltac:(by rewrite HD1eq)).
    assert (m2 < 2 ^ 53).
    { rewrite Hm2exact. unfold m1. rewrite HD1eq.
      assert (2 ^ d ≤ 2 ^ 53) by (apply Z.pow_le_mono_r; lia). lia. }
    destruct Hn2 as [[Hn2 ?]|[? ?]]; [|lia].
    rewrite Hn2, Z.pow_0_r in Hm3.
    unfold m1 in Hm2exact. rewrite HD1eq in Hm2exact. lia.
Qed.

Lemma binary_round_aux_spec N D ex :
  0 < D → D ≤ N →
  -1074 ≤ Zdigits2 (N / D) + ex - 53 →
  Zdigits2 (N / D) + ex ≤ 1023 → ex ≤ 970 →
  ∃ (m : positive) (n : Z),
    binary_round_aux 53 1024 false (N / D) ex (loc_of (N mod D) D)
    = S754_finite false m (ex + n)
    ∧ 0 ≤ n ≤ Z.max 0 (Zdigits2 (N / D) - 53) + 1
    ∧ Z.abs (2 * (Z.pos m * 2 ^ n * D - N)) ≤ D * 2 ^ n
    ∧ Z.pos m < 2 ^ 53
    ∧ (53 ≤ Zdigits2 (N / D) → 2 ^ 52 ≤ Z.pos m)
    ∧ (N mod D = 0 → Zdigits2 (N / D) ≤ 53 → n = 0 ∧ Z.pos m = N / D).
Proof.
  intros HD HN Hnormal Hmax Hex.
  destruct (binary_round_aux_sharp N D ex HD HN Hnormal Hmax Hex)
    as (m & n & Heq & Hn & Herr & _ & _ & Hrest).
  by exists m, n.
Qed.

(** The same for an integer [m], as the product of two mantissas is. *)
Lemma binary_round_aux_exact m ex :
  0 < m →
  -1074 ≤ Zdigits2 m + ex - 53 →
  Zdigits2 m + ex ≤ 1023 → ex ≤ 970 →
  ∃ (m' : positive) (n : Z),
    binary_round_aux 53 1024 false m ex loc_Exact
    = S754_finite false m' (ex + n)
    ∧ 0 ≤ n ≤ Z.max 0 (Zdigits2 m - 53) + 1
    ∧ Z.abs (2 * (Z.pos m' * 2 ^ n - m)) ≤ 2 ^ n
    ∧ Z.pos m' < 2 ^ 53
    ∧ (53 ≤ Zdigits2 m → 2 ^ 52 ≤ Z.pos m')
    ∧ (Zdigits2 m ≤ 53 → n = 0 ∧ Z.pos m' = m).
Proof.
  intros Hm Hnormal Hmax Hex.
  pose proof (binary_round_aux_spec m 1 ex ltac:(lia) ltac:(lia)) as Hspec.
  rewrite Z.div_1_r, Z.mod_1_r in Hspec.
  change (loc_of 0 1) with loc_Exact in Hspec.
  destruct (Hspec Hnormal Hmax Hex) as (m' & n & Heq & Hn & Herr & Hlt & Hbig & Hexact).
  exists m', n. rewrite Z.mul_1_r in Herr. rewrite Z.mul_1_l in Herr.
  repeat split; try done; try lia; by apply Hexact.
Qed.

(** Shifting a mantissa to the left. *)
Lemma shl_pos p d : Z.pos (Pos.iter xO p d) = Z.pos p * 2 ^ Z.pos d.
Proof.
  induction d as [|d IH] using Pos.peano_ind.
  - simpl. lia.
  - rewrite Pos.iter_succ, Pos2Z.inj_xO, IH, Pos2Z.inj_succ, Z.pow_succ_r by lia.
    ring.
Qed.

(** [float(W)] for an integer that fits the mantissa. *)
Lemma of_int_spec W :
  0 < W < 2 ^ 53 →
  ∃ (m : positive) (k : Z),
    PyFloat.of_int W = inr (S754_finite false m (- k))
    ∧ 0 ≤ k ≤ 52
    ∧ Z.pos m = W * 2 ^ k
    ∧ 2 ^ 52 ≤ Z.pos m < 2 ^ 53.
Proof.
  intros [HW0 HW]. destruct W as [|p|p]; try lia.
  destruct (Zdigits2_bounds (Z.pos p) ltac:(lia)) as [Hlo Hhi].
  pose proof (Zdigits2_le (Z.pos p) 53 ltac:(lia) ltac:(lia) HW) as Hd.
  pose proof (Zdigits2_pos (Z.pos p) ltac:(lia)) as Hdpos.
  unfold PyFloat.of_int, binary_normalize, binary_round.
  unfold PyFloat.prec, PyFloat.emax.
  change (Z.pos (digits2_pos p)) with (Zdigits2 (Z.pos p)).
  set (d := Zdigits2 (Z.pos p)) in *.
  rewrite fexp_normal by lia.
  set (k := 53 - d).
  assert (∃ mz : positive, shl_align p 0 (d + 0 - 53) = (mz, - k)
                           ∧ Z.pos mz = Z.pos p * 2 ^ k) as (mz & -> & Hmz).
  { unfold shl_align. 
    destruct (d + 0 - 53 - 0) as [|q|q] eqn:Hdiff; try lia.
    - exists p. replace k with 0 by lia. split; [done|]. lia.
    - exists (Pos.iter xO p q). split; [f_equal; lia|].
      rewrite shl_pos. f_equal. f_equal. lia. }
  assert (2 ^ 52 ≤ Z.pos mz < 2 ^ 53) as Hmzb.
  { rewrite Hmz.
    assert (2 ^ 52 = 2 ^ (d - 1) * 2 ^ k) as ->
      by (rewrite <- Z.pow_add_r by lia; f_equal; lia).
    assert (2 ^ 53 = 2 ^ d * 2 ^ k) as ->
      by (rewrite <- Z.pow_add_r by lia; f_equal; lia).
    assert (0 < 2 ^ k) by (apply Z.pow_pos_nonneg; lia).
    nia. }
  assert (Zdigits2 (Z.pos mz) = 53) as Hdz by (apply Zdigits2_unique; lia).
  destruct (binary_round_aux_exact (Z.pos mz) (- k) ltac:(lia) ltac:(lia)
              ltac:(lia) ltac:(lia))
    as (m' & n & -> & _ & _ & _ & _ & Hexact).
  destruct (Hexact ltac:(lia)) as [-> Hm'].
  exists m', k. rewrite Z.add_0_r. repeat split; try lia; congruence.
Qed.

(** The position the division computes is the position of its remainder. *)
Lemma new_location_spec D r :
  0 < D → 0 ≤ r < D → new_location D r = loc_of r D.
Proof.
  intros HD Hr. unfold new_location, new_location_even, new_location_odd, loc_of.
  destruct (Z.even D) eqn:Heven; [done|].
  destruct (Z.eqb_spec r 0); [done|]. f_equal.
  assert (Z.odd D = true) as Hodd by (by rewrite <- Z.negb_even, Heven).
  apply Z.odd_spec in Hodd as [j Hj].
  destruct (Z.compare_spec (2 * r + 1) D);
    symmetry; [apply Z.compare_lt_iff|apply Z.compare_lt_iff
              |apply Z.compare_gt_iff]; lia.
Qed.

(** [Hn / Wn] for integers that fit the mantissa: a 53-bit mantissa [m]
    and an exponent [n - s] such that [m * 2^(n-s)] is within half a unit
    in the last place of the quotient. *)
Lemma int_truediv_spec Hn Wn :
  0 < Hn < 2 ^ 53 → 0 < Wn < 2 ^ 53 →
  ∃ (m : positive) (s n : Z),
    PyFloat.int_truediv Hn Wn = inr (S754_finite false m (n - s))
    ∧ 0 ≤ n ≤ 2 ∧ 0 < s ≤ 105
    ∧ 2 ^ 52 ≤ Z.pos m < 2 ^ 53
    ∧ Z.abs (2 * (Z.pos m * 2 ^ n * Wn - Hn * 2 ^ s)) ≤ Wn * 2 ^ n.
Proof.
  intros [HH0 HH] [HW0 HW].
  destruct Hn as [|hp|hp]; try lia. destruct Wn as [|wp|wp]; try lia.
  destruct (Zdigits2_bounds (Z.pos hp) ltac:(lia)) as [Hlo1 Hhi1].
  destruct (Zdigits2_bounds (Z.pos wp) ltac:(lia)) as [Hlo2 Hhi2].
  pose proof (Zdigits2_le (Z.pos hp) 53 ltac:(lia) ltac:(lia) HH) as Hd1.
  pose proof (Zdigits2_le (Z.pos wp) 53 ltac:(lia) ltac:(lia) HW) as Hd2.
  pose proof (Zdigits2_pos (Z.pos hp) ltac:(lia)) as Hd1pos.
  pose proof (Zdigits2_pos (Z.pos wp) ltac:(lia)) as Hd2pos.
  set (d1 := Zdigits2 (Z.pos hp)) in *.
  set (d2 := Zdigits2 (Z.pos wp)) in *.
  set (s := 53 + d2 - d1).
  assert (0 < 2 ^ s) as Hpows by (apply Z.pow_pos_nonneg; lia).
  set (N := Z.pos hp * 2 ^ s).
  assert (SFdiv_core_binary 53 1024 (Z.pos hp) 0 (Z.pos wp) 0
          = (N / Z.pos wp, - s, loc_of (N mod Z.pos wp) (Z.pos wp))) as Hcore.
  { unfold SFdiv_core_binary. fold d1 d2.
    rewrite fexp_normal by lia.
    replace (Z.min (d1 + 0 - (d2 + 0) - 53) (0 - 0)) with (- s) by lia.
    replace (0 - 0 - - s) with s by lia.
    assert (match s with
            | 0 => Z.pos hp
            | Z.pos _ => Z.shiftl (Z.pos hp) s
            | Z.neg _ => 0
            end = N) as ->.
    { unfold N. rewrite <- Z.shiftl_mul_pow2 by lia.
      destruct s eqn:Hs; lia. }
    pose proof (Z.mod_pos_bound N (Z.pos wp) ltac:(lia)) as Hrb.
    unfold Z.div, Z.modulo in *.
    destruct (Z.div_eucl N (Z.pos wp)) as [q r].
    by rewrite new_location_spec by lia. }
  assert (2 ^ 52 * Z.pos wp ≤ N ∧ N < 2 ^ 54 * Z.pos wp) as [HNlo HNhi].
  { unfold N.
    assert (2 ^ (d1 - 1) * 2 ^ s = 2 ^ 52 * 2 ^ d2) as Hs1.
    { rewrite <- !Z.pow_add_r by lia. f_equal. lia. }
    assert (2 ^ d1 * 2 ^ s = 2 ^ 54 * 2 ^ (d2 - 1)) as Hs2.
    { rewrite <- !Z.pow_add_r by lia. f_equal. lia. }
    split; nia. }
  assert (2 ^ 52 ≤ N / Z.pos wp < 2 ^ 54) as [Hqlo Hqhi].
  { split; [apply Z.div_le_lower_bound|apply Z.div_lt_upper_bound]; lia. }
  assert (53 ≤ Zdigits2 (N / Z.pos wp) ≤ 54) as Hdq.
  { split; [apply Zdigits2_ge|apply Zdigits2_le]; lia. }
  destruct (binary_round_aux_spec N (Z.pos wp) (- s) ltac:(lia) ltac:(lia)
              ltac:(lia) ltac:(lia) ltac:(lia))
    as (m & n & Heq & Hn & Herr & Hlt & Hbig & _).
  exists m, s, n.
  unfold PyFloat.int_truediv, PyFloat.of_int_exact, SFdiv.
  unfold PyFloat.prec, PyFloat.emax.
  rewrite Hcore. simpl xorb. rewrite Heq.
  replace (- s + n) with (n - s) by lia.
  repeat split; lia.
Qed.

(** The product of two floats with full mantissas, away from the ends of
    the exponent range. *)
Lemma SFmul_spec (m1 m2 : positive) (e1 e2 : Z) :
  2 ^ 52 ≤ Z.pos m1 < 2 ^ 53 → 2 ^ 52 ≤ Z.pos m2 < 2 ^ 53 →
  -500 ≤ e1 + e2 ≤ 500 →
  ∃ (m : positive) (n : Z),
    SFmul 53 1024 (S754_finite false m1 e1) (S754_finite false m2 e2)
    = S754_finite false m (e1 + e2 + n)
    ∧ 0 ≤ n ≤ 54
    ∧ 2 ^ 52 ≤ Z.pos m < 2 ^ 53
    ∧ Z.abs (2 * (Z.pos m * 2 ^ n - Z.pos m1 * Z.pos m2)) ≤ 2 ^ n.
Proof.
  intros Hm1 Hm2 He. unfold SFmul. simpl xorb.
  rewrite Pos2Z.inj_mul.
  assert (2 ^ 104 ≤ Z.pos m1 * Z.pos m2 < 2 ^ 106) as [Hlo Hhi].
  { change (2 ^ 104) with (2 ^ 52 * 2 ^ 52).
    change (2 ^ 106) with (2 ^ 53 * 2 ^ 53). nia. }
  assert (105 ≤ Zdigits2 (Z.pos m1 * Z.pos m2) ≤ 106) as Hd.
  { split; [apply Zdigits2_ge|apply Zdigits2_le]; lia. }
  destruct (binary_round_aux_exact (Z.pos m1 * Z.pos m2) (e1 + e2)
              ltac:(lia) ltac:(lia) ltac:(lia) ltac:(lia))
    as (m & n & -> & Hn & Herr & Hlt & Hbig & _).
  exists m, n. repeat split; lia.
Qed.

(** Truncating [m * 2 ^ (a - b)]. *)
Lemma shiftl_split m a b :
  0 ≤ a → 0 ≤ b → Z.shiftl m (a - b) = m * 2 ^ a / 2 ^ b.
Proof.
  intros Ha Hb.
  assert (0 < 2 ^ a) by (apply Z.pow_pos_nonneg; lia).
  assert (0 < 2 ^ b) by (apply Z.pow_pos_nonneg; lia).
  destruct (Z.le_gt_cases b a) as [Hle|Hgt].
  - rewrite Z.shiftl_mul_pow2 by lia.
    replace a with (a - b + b) at 2 by lia.
    rewrite Z.pow_add_r, Z.mul_assoc, Z.div_mul by lia. done.
  - replace (a - b) with (- (b - a)) by lia.
    rewrite Z.shiftl_opp_r, Z.shiftr_div_pow2 by lia.
    replace b with (b - a + a) at 2 by lia.
    rewrite Z.pow_add_r by lia.
    rewrite Z.div_mul_cancel_r by lia. done.
Qed.


(** *** Two roundings in a row *)

(** [A / C] is [W * B] rounded and [B] is [Hn * C / Wn] rounded, each with
    a relative error of at most [1 / U]. *)
Lemma two_roundings_upper U A B C W Hn Wn :
  2 ≤ U → 0 < C → 0 ≤ A → 0 ≤ B → 0 < W → 0 ≤ Hn → 0 < Wn →
  A * (U - 1) ≤ U * (W * B) →
  B * Wn * (U - 1) ≤ U * (Hn * C) →
  A * ((U - 1) * (U - 1) * Wn) ≤ U * U * (W * Hn) * C.
Proof.
  intros HU HC HA HB HW HHn HWn H1 H2.
  pose proof (Z.mul_le_mono_nonneg_r _ _ ((U - 1) * Wn) ltac:(nia) H1) as H3.
  pose proof (Z.mul_le_mono_nonneg_l _ _ (U * W) ltac:(nia) H2) as H4.
  lia.
Qed.

Lemma two_roundings_lower U A B C W Hn Wn :
  2 ≤ U → 0 < C → 0 ≤ A → 0 ≤ B → 0 < W → 0 ≤ Hn → 0 < Wn →
  U * (W * B) ≤ A * (U + 1) →
  U * (Hn * C) ≤ B * Wn * (U + 1) →
  U * U * (W * Hn) * C ≤ A * ((U + 1) * (U + 1) * Wn).
Proof.
  intros HU HC HA HB HW HHn HWn H1 H2.
  pose proof (Z.mul_le_mono_nonneg_r _ _ ((U + 1) * Wn) ltac:(nia) H1) as H3.
  pose proof (Z.mul_le_mono_nonneg_l _ _ (U * W) ltac:(nia) H2) as H4.
  lia.
Qed.

(** With [2 * (W * Hn + Wn) ≤ U], two such roundings move the integer part
    of [W * Hn / Wn] down by at most one, and only when the division is
    exact. *)
Lemma height_arith U A B C W Hn Wn :
  2 ≤ U → 0 < C → 0 ≤ A → 0 ≤ B → 0 < W → 0 ≤ Hn → 0 < Wn →
  2 * (W * Hn + Wn) ≤ U →
  A * (U - 1) ≤ U * (W * B) → U * (W * B) ≤ A * (U + 1) →
  B * Wn * (U - 1) ≤ U * (Hn * C) → U * (Hn * C) ≤ B * Wn * (U + 1) →
  (W * Hn) / Wn - 1 ≤ A / C ≤ (W * Hn) / Wn
  ∧ ((W * Hn) mod Wn ≠ 0 → A / C = (W * Hn) / Wn).
Proof.
  intros HU HC HA HB HW HHn HWn Hsmall H1 H2 H3 H4.
  pose proof (two_roundings_upper U A B C W Hn Wn) as Hup.
  pose proof (two_roundings_lower U A B C W Hn Wn) as Hlow.
  specialize (Hup HU HC HA HB HW HHn HWn H1 H3).
  specialize (Hlow HU HC HA HB HW HHn HWn H2 H4).
  set (T := W * Hn) in *.
  assert (0 ≤ T) as HT by (unfold T; nia).
  pose proof (Z.div_mod T Wn ltac:(lia)) as HTdiv.
  pose proof (Z.mod_pos_bound T Wn HWn) as Htbound.
  pose proof (Z.div_mod A C ltac:(lia)) as HAdiv.
  pose proof (Z.mod_pos_bound A C HC) as Hrbound.
  assert (0 ≤ T / Wn) as Hn0 by (apply Z.div_pos; lia).
  assert (0 ≤ A / C) as Hh0 by (apply Z.div_pos; lia).
  revert HTdiv Htbound HAdiv Hrbound Hn0 Hh0.
  generalize (T / Wn) (T mod Wn) (A / C) (A mod C).
  intros n t h rho HTdiv Htbound HAdiv Hrbound Hn0 Hh0.
  assert (h ≤ n) as Hupper.
  { destruct (Z.le_gt_cases h n) as [|Hgt]; [done|]. exfalso.
    assert (C * (n + 1) ≤ A) as HA' by nia.
    set (K := (n + 1) * Wn).
    assert (1 ≤ K ∧ 2 * K ≤ U ∧ T ≤ K - 1) as (HK1 & HK2 & HK3)
      by (unfold K; nia).
    assert (C * (K * ((U - 1) * (U - 1))) ≤ C * (U * U * T)) as Hc.
    { assert (C * (n + 1) * ((U - 1) * (U - 1) * Wn)
              ≤ A * ((U - 1) * (U - 1) * Wn)) as Hm
        by (apply Z.mul_le_mono_nonneg_r; nia).
      unfold K. lia. }
    apply Z.mul_le_mono_pos_l in Hc; [|done].
    nia. }
  assert (n - 1 ≤ h) as Hlower.
  { destruct (Z.le_gt_cases (n - 1) h) as [|Hlt]; [done|]. exfalso.
    assert (A < C * (n - 1)) as HA' by nia.
    set (L := n * Wn).
    assert (0 ≤ L ∧ 2 * L + 2 * Wn ≤ U ∧ L ≤ T) as (HL1 & HL2 & HL3)
      by (unfold L; nia).
    assert (C * (U * U * T) < C * ((L - Wn) * ((U + 1) * (U + 1)))) as Hc.
    { assert (A * ((U + 1) * (U + 1) * Wn)
              < C * (n - 1) * ((U + 1) * (U + 1) * Wn)) as Hm
        by (apply Z.mul_lt_mono_pos_r; nia).
      unfold L. lia. }
    apply Z.mul_lt_mono_pos_l in Hc; [|done].
    nia. }
  split; [lia|].
  intros Ht.
  destruct (Z.le_gt_cases n h) as [|Hlt]; [lia|]. exfalso.
  assert (A < C * n) as HA' by nia.
  set (L := n * Wn).
  assert (0 ≤ L ∧ 2 * L + 2 ≤ U ∧ T = L + t ∧ 1 ≤ t) as (HL1 & HL2 & HL3 & HL4)
    by (unfold L; nia).
  assert (C * (U * U * T) < C * (L * ((U + 1) * (U + 1)))) as Hc.
  { assert (A * ((U + 1) * (U + 1) * Wn)
            < C * n * ((U + 1) * (U + 1) * Wn)) as Hm
      by (apply Z.mul_lt_mono_pos_r; nia).
    unfold L. lia. }
  apply Z.mul_lt_mono_pos_l in Hc; [|done].
  nia.
Qed.

(** *** Values that are representable *)

(** A value that fits the mantissa after the first shift is not moved. *)
Lemma binary_round_aux_representable q ex :
  0 < q →
  -1074 ≤ Zdigits2 q + ex - 53 →
  Zdigits2 q + ex ≤ 1023 → ex ≤ 970 →
  q mod 2 ^ Z.max 0 (Zdigits2 q - 53) = 0 →
  ∃ (m : positive) (n : Z),
    binary_round_aux 53 1024 false q ex loc_Exact
    = S754_finite false m (ex + n)
    ∧ 0 ≤ n
    ∧ Z.pos m * 2 ^ n = q
    ∧ Z.pos m < 2 ^ 53
    ∧ (53 ≤ Zdigits2 q → 2 ^ 52 ≤ Z.pos m).
Proof.
  intros Hq Hnormal Hmax Hex Hdiv.
  pose proof (binary_round_aux_sharp q 1 ex ltac:(lia) ltac:(lia)) as Hspec.
  rewrite Z.div_1_r, Z.mod_1_r in Hspec.
  change (loc_of 0 1) with loc_Exact in Hspec.
  destruct (Hspec Hnormal Hmax Hex)
    as (m & n & Heq & Hn & _ & Hn1 & Herr & Hlt & Hbig & _).
  exists m, n. repeat split; try done; try lia.
  set (n1 := Z.max 0 (Zdigits2 q - 53)) in *.
  assert (0 < 2 ^ n1) as Hpow by (apply Z.pow_pos_nonneg; lia).
  apply Z.mod_divide in Hdiv as [c Hc]; [|lia].
  assert (2 ^ n = 2 ^ (n - n1) * 2 ^ n1) as Hsplit.
  { rewrite <- Z.pow_add_r by lia. f_equal. lia. }
  assert (0 < 2 ^ (n - n1)) by (apply Z.pow_pos_nonneg; lia).
  rewrite Z.mul_1_r, Z.mul_1_l in Herr.
  rewrite Hsplit, Hc in *.
  revert Herr. generalize (2 ^ (n - n1)) (2 ^ n1) Hpow. intros a b Hb Herr.
  assert (Z.pos m * a - c = 0); [|nia].
  destruct (Z.lt_trichotomy (Z.pos m * a - c) 0) as [Hlt'|[?|Hgt]]; [|done|].
  - assert (Z.pos m * a - c ≤ -1) by lia. nia.
  - assert (1 ≤ Z.pos m * a - c) by lia. nia.
Qed.

Lemma full_mantissa_unique m1 m2 a b :
  2 ^ 52 ≤ m1 < 2 ^ 53 → 2 ^ 52 ≤ m2 < 2 ^ 53 → 0 ≤ a → 0 ≤ b →
  m1 * 2 ^ a = m2 * 2 ^ b → a = b ∧ m1 = m2.
Proof.
  intros Hm1 Hm2 Ha Hb Heq.
  assert (∀ x y u v, 2 ^ 52 ≤ x < 2 ^ 53 → 2 ^ 52 ≤ y < 2 ^ 53 →
            0 ≤ u < v → x * 2 ^ u = y * 2 ^ v → False) as Hno.
  { intros x y u v Hx Hy Huv Hxy.
    replace v with (v - u - 1 + 1 + u) in Hxy by lia.
    rewrite !Z.pow_add_r, Z.pow_1_r in Hxy by lia.
    assert (0 < 2 ^ u) by (apply Z.pow_pos_nonneg; lia).
    assert (0 < 2 ^ (v - u - 1)) by (apply Z.pow_pos_nonneg; lia).
    assert (x = y * (2 ^ (v - u - 1) * 2)) by nia.
    nia. }
  destruct (Z.lt_trichotomy a b) as [Hlt|[->|Hgt]].
  - exfalso. by apply (Hno m1 m2 a b).
  - split; [done|].
    assert (0 < 2 ^ b) by (apply Z.pow_pos_nonneg; lia). nia.
  - exfalso. by apply (Hno m2 m1 b a).
Qed.

(** [int(float(z)) = z] as long as [z] fits the mantissa. *)
Lemma to_int_of_int z f :
  0 < z < 2 ^ 53 → PyFloat.of_int z = inr f → PyFloat.to_int f = inr z.
Proof.
  intros Hz Hf.
  destruct (of_int_spec z Hz) as (m & k & Hconv & Hk & Hm & _).
  rewrite Hconv in Hf. injection Hf as <-. simpl. f_equal.
  rewrite Z.shiftl_opp_r, Z.shiftr_div_pow2 by lia.
  rewrite Hm. apply Z.div_mul.
  assert (0 < 2 ^ k) by (apply Z.pow_pos_nonneg; lia). lia.
Qed.

(** The first step of the division, for integers that fit the mantissa. *)
Lemma SFdiv_core_spec (hp wp : positive) :
  Z.pos hp < 2 ^ 53 → Z.pos wp < 2 ^ 53 →
  let s := 53 + Zdigits2 (Z.pos wp) - Zdigits2 (Z.pos hp) in
  let N := Z.pos hp * 2 ^ s in
  0 < s ≤ 105
  ∧ 2 ^ 52 ≤ N / Z.pos wp < 2 ^ 54
  ∧ SFdiv_core_binary 53 1024 (Z.pos hp) 0 (Z.pos wp) 0
    = (N / Z.pos wp, - s, loc_of (N mod Z.pos wp) (Z.pos wp)).
Proof.
  intros HH HW.
  destruct (Zdigits2_bounds (Z.pos hp) ltac:(lia)) as [Hlo1 Hhi1].
  destruct (Zdigits2_bounds (Z.pos wp) ltac:(lia)) as [Hlo2 Hhi2].
  pose proof (Zdigits2_le (Z.pos hp) 53 ltac:(lia) ltac:(lia) HH) as Hd1.
  pose proof (Zdigits2_le (Z.pos wp) 53 ltac:(lia) ltac:(lia) HW) as Hd2.
  pose proof (Zdigits2_pos (Z.pos hp) ltac:(lia)) as Hd1pos.
  pose proof (Zdigits2_pos (Z.pos wp) ltac:(lia)) as Hd2pos.
  set (d1 := Zdigits2 (Z.pos hp)) in *.
  set (d2 := Zdigits2 (Z.pos wp)) in *.
  intros s N.
  assert (0 < 2 ^ s) as Hpows by (apply Z.pow_pos_nonneg; lia).
  assert (2 ^ 52 * Z.pos wp ≤ N ∧ N < 2 ^ 54 * Z.pos wp) as [HNlo HNhi].
  { unfold N.
    assert (2 ^ (d1 - 1) * 2 ^ s = 2 ^ 52 * 2 ^ d2) as Hs1.
    { rewrite <- !Z.pow_add_r by lia. f_equal. lia. }
    assert (2 ^ d1 * 2 ^ s = 2 ^ 54 * 2 ^ (d2 - 1)) as Hs2.
    { rewrite <- !Z.pow_add_r by lia. f_equal. lia. }
    split; nia. }
  split; [lia|]. split.
  { split; [apply Z.div_le_lower_bound|apply Z.div_lt_upper_bound]; lia. }
  unfold SFdiv_core_binary. fold d1 d2.
  rewrite fexp_normal by lia.
  replace (Z.min (d1 + 0 - (d2 + 0) - 53) (0 - 0)) with (- s) by lia.
  replace (0 - 0 - - s) with s by lia.
  assert (match s with
          | 0 => Z.pos hp
          | Z.pos _ => Z.shiftl (Z.pos hp) s
          | Z.neg _ => 0
          end = N) as ->.
  { unfold N. rewrite <- Z.shiftl_mul_pow2 by lia.
    destruct s eqn:Hs; lia. }
  pose proof (Z.mod_pos_bound N (Z.pos wp) ltac:(lia)) as Hrb.
  unfold Z.div, Z.modulo in *.
  destruct (Z.div_eucl N (Z.pos wp)) as [q r].
  by rewrite new_location_spec by lia.
Qed.

(** A quotient that is an integer is that integer. *)
Lemma int_truediv_multiple k Wn :
  0 < k → 0 < Wn → k * Wn < 2 ^ 53 →
  PyFloat.int_truediv (k * Wn) Wn = PyFloat.of_int k.
Proof.
  intros Hk HWn Hsmall.
  assert (k < 2 ^ 53 ∧ Wn < 2 ^ 53) as [Hkb HWnb] by nia.
  destruct (of_int_spec k ltac:(lia)) as (mk & j & -> & Hj & Hmk & Hmkb).
  destruct (k * Wn) as [|hp|hp] eqn:HHn; try nia.
  destruct Wn as [|wp|wp]; try lia.
  destruct (SFdiv_core_spec hp wp ltac:(lia) ltac:(lia))
    as (Hs & Hq & Hcore).
  set (s := 53 + Zdigits2 (Z.pos wp) - Zdigits2 (Z.pos hp)) in *.
  assert (0 < 2 ^ s) as Hpows by (apply Z.pow_pos_nonneg; lia).
  assert (Z.pos hp * 2 ^ s / Z.pos wp = k * 2 ^ s) as Hquot.
  { rewrite <- HHn. replace (k * Z.pos wp * 2 ^ s) with (k * 2 ^ s * Z.pos wp)
      by ring. by apply Z.div_mul. }
  assert (Z.pos hp * 2 ^ s mod Z.pos wp = 0) as Hrem.
  { rewrite <- HHn. replace (k * Z.pos wp * 2 ^ s) with (k * 2 ^ s * Z.pos wp)
      by ring. by apply Z.mod_mul. }
  rewrite Hquot, Hrem in Hcore. change (loc_of 0 (Z.pos wp)) with loc_Exact in Hcore.
  rewrite Hquot in Hq.
  assert (53 ≤ Zdigits2 (k * 2 ^ s) ≤ 54) as Hdq.
  { split; [apply Zdigits2_ge|apply Zdigits2_le]; lia. }
  destruct (binary_round_aux_representable (k * 2 ^ s) (- s) ltac:(lia)
              ltac:(lia) ltac:(lia) ltac:(lia))
    as (m & n & Heq & Hn & Hval & Hlt & Hbig).
  { set (n1 := Z.max 0 (Zdigits2 (k * 2 ^ s) - 53)).
    replace s with (s - n1 + n1) at 1 by lia.
    rewrite Z.pow_add_r, Z.mul_assoc by lia.
    apply Z.mod_mul. apply Z.pow_nonzero; lia. }
  unfold PyFloat.int_truediv. rewrite (proj2 (Z.eqb_neq _ _)) by lia.
  unfold PyFloat.of_int_exact, SFdiv, PyFloat.prec, PyFloat.emax.
  rewrite Hcore. simpl xorb. rewrite Heq.
  assert (0 < 2 ^ j) by (apply Z.pow_pos_nonneg; lia).
  destruct (full_mantissa_unique (Z.pos m) (Z.pos mk) (n + j) s)
    as [Hexp Hmant]; try lia.
  { rewrite Z.pow_add_r, Z.mul_assoc, Hval, Hmk by lia. ring. }
  injection Hmant as ->. do 2 f_equal. lia.
Qed.

(** The product of two integers that fits the mantissa is that product. *)
Lemma int_mul_float_exact a b fb :
  0 < a → 0 < b → a * b < 2 ^ 53 →
  PyFloat.of_int b = inr fb →
  PyFloat.int_mul_float a fb = PyFloat.of_int (a * b).
Proof.
  intros Ha Hb Hsmall Hfb.
  assert (a < 2 ^ 53 ∧ b < 2 ^ 53) as [Hab Hbb] by nia.
  destruct (of_int_spec a ltac:(lia)) as (ma & ja & Hca & Hja & Hma & Hmab).
  destruct (of_int_spec b ltac:(lia)) as (mb & jb & Hcb & Hjb & Hmb & Hmbb).
  destruct (of_int_spec (a * b) ltac:(nia)) as (mc & jc & -> & Hjc & Hmc & Hmcb).
  rewrite Hcb in Hfb. injection Hfb as <-.
  unfold PyFloat.int_mul_float. rewrite Hca.
  cbn [mbind result_mbind result_bind mret result_ret].
  unfold SFmul, PyFloat.prec, PyFloat.emax. simpl xorb.
  rewrite Pos2Z.inj_mul.
  set (q := Z.pos ma * Z.pos mb).
  assert (2 ^ 104 ≤ q < 2 ^ 106) as [Hlo Hhi].
  { unfold q. change (2 ^ 104) with (2 ^ 52 * 2 ^ 52).
    change (2 ^ 106) with (2 ^ 53 * 2 ^ 53). nia. }
  assert (105 ≤ Zdigits2 q ≤ 106) as Hd.
  { split; [apply Zdigits2_ge|apply Zdigits2_le]; lia. }
  assert (q = a * b * 2 ^ (ja + jb)) as Hq.
  { unfold q. rewrite Hma, Hmb, Z.pow_add_r by lia. ring. }
  assert (0 < 2 ^ (ja + jb)) by (apply Z.pow_pos_nonneg; lia).
  assert (Zdigits2 q ≤ 53 + (ja + jb)) as Hdq.
  { apply Zdigits2_le; [lia|lia|].
    rewrite Hq, (Z.pow_add_r 2 53) by lia.
    by apply Z.mul_lt_mono_pos_r. }
  destruct (binary_round_aux_representable q (- ja + - jb) ltac:(lia)
              ltac:(lia) ltac:(lia) ltac:(lia))
    as (m & n & -> & Hn & Hval & Hlt & Hbig).
  { set (n1 := Z.max 0 (Zdigits2 q - 53)).
    rewrite Hq. replace (ja + jb) with (ja + jb - n1 + n1) by lia.
    rewrite Z.pow_add_r, Z.mul_assoc by lia.
    apply Z.mod_mul. apply Z.pow_nonzero; lia. }
  assert (0 < 2 ^ jc) by (apply Z.pow_pos_nonneg; lia).
  destruct (full_mantissa_unique (Z.pos m) (Z.pos mc) (n + jc) (ja + jb))
    as [Hexp Hmant]; try lia.
  { rewrite Z.pow_add_r, Z.mul_assoc, Hval, Hmc, Hq by lia. ring. }
  injection Hmant as ->. do 2 f_equal. lia.
Qed.

Section Properties.

Variable resize : PIL.image → Z → Z → result PIL.image.
Variable column_letter : Z → string.
Variable parse_args : list string → parse_result.

(** ** The grid of the loader *)

Lemma classify_invert v t : classify v t true = negb (classify v t false).
Proof. done. Qed.

Lemma threshold_rows_shape img W H t inv pixels :
  threshold_rows img W H t inv = inr pixels →
  length pixels = Z.to_nat H
  ∧ Forall (λ row, length row = Z.to_nat W) pixels.
Proof.
  intros Hrows. split.
  - apply for_append_length in Hrows. by rewrite Hrows, range_length.
  - apply Forall_lookup. intros i row Hrow.
    assert (is_Some (range H !! i)) as [y Hy].
    { apply lookup_lt_is_Some. apply for_append_length in Hrows.
      rewrite <- Hrows. by eapply lookup_lt_Some. }
    destruct (for_append_lookup _ _ _ _ _ Hrows Hy) as (row' & Hrow' & Hbody).
    simplify_eq. apply for_append_length in Hbody.
    by rewrite Hbody, range_length.
Qed.

Lemma threshold_rows_entry img W H t inv pixels x y :
  threshold_rows img W H t inv = inr pixels →
  0 ≤ x < W → 0 ≤ y < H →
  ∃ v row, PIL.getpixel img x y = inr v
    ∧ pixels !! Z.to_nat y = Some row
    ∧ row !! Z.to_nat x = Some (classify v t inv).
Proof.
  intros Hrows Hx Hy.
  destruct (for_append_lookup _ _ _ _ _ Hrows (range_lookup H y Hy))
    as (row & Hrow & Hbody).
  destruct (for_append_lookup _ _ _ _ _ Hbody (range_lookup W x Hx))
    as (b & Hb & Hpix).
  unfold mbind, result_mbind, mret, result_ret in Hpix.
  destruct (PIL.getpixel img x y) as [e|v]; simpl in Hpix; [done|].
  exists v, row. by simplify_eq.
Qed.

Lemma threshold_rows_invert img W H t :
  threshold_rows img W H t true
  = (pixels ← threshold_rows img W H t false; mret (map (map negb) pixels)).
Proof.
  unfold threshold_rows.
  rewrite <- (for_append_map _ (map negb)).
  apply for_append_ext. intros y _.
  rewrite <- (for_append_map _ negb).
  apply for_append_ext. intros x _.
  unfold mbind, result_mbind, mret, result_ret.
  by destruct (PIL.getpixel img x y).
Qed.

(** ** The derived height *)

Lemma derive_height_bounds W img :
  0 < W → 0 < PIL.width img → 0 < PIL.height img →
  W * PIL.height img + PIL.width img ≤ 2 ^ 52 →
  ∃ h,
    derive_height W img = inr h
    ∧ 0 ≤ h
    ∧ W * PIL.height img / PIL.width img - 1 ≤ h
        ≤ W * PIL.height img / PIL.width img
    ∧ ((W * PIL.height img) mod PIL.width img ≠ 0 →
       h = W * PIL.height img / PIL.width img).
Proof.
  destruct img as [Wn Hn data]. simpl. intros HW HWn HHn Hsmall.
  assert (W * 1 ≤ W * Hn) by (apply Z.mul_le_mono_nonneg_l; lia).
  assert (1 * Hn ≤ W * Hn) by (apply Z.mul_le_mono_nonneg_r; lia).
  assert (W < 2 ^ 53 ∧ Hn < 2 ^ 53 ∧ Wn < 2 ^ 53) as (HWb & HHb & HWnb) by lia.
  destruct (int_truediv_spec Hn Wn ltac:(lia) ltac:(lia))
    as (mr & s & nr & Hdiv & Hnr & Hs & Hmr & Herr_r).
  destruct (of_int_spec W ltac:(lia)) as (mW & k & Hconv & Hk & HmW & HmWb).
  destruct (SFmul_spec mW mr (- k) (nr - s) ltac:(lia) ltac:(lia) ltac:(lia))
    as (mp & np & Hmul & Hnp & Hmp & Herr_p).
  unfold derive_height. simpl PIL.height. simpl PIL.width.
  rewrite Hdiv. unfold PyFloat.int_mul_float.
  cbn [mbind result_mbind result_bind mret result_ret].
  rewrite Hconv. cbn [mbind result_mbind result_bind mret result_ret].
  unfold PyFloat.prec, PyFloat.emax. rewrite Hmul.
  unfold PyFloat.to_int, cond_Zopp.
  replace (- k + (nr - s) + np) with ((np + nr) - (k + s)) by lia.
  rewrite shiftl_split by lia.
  eexists. split; [reflexivity|].
  assert (0 < 2 ^ np ∧ 0 < 2 ^ nr ∧ 0 < 2 ^ k ∧ 0 < 2 ^ s)
    as (HP & HR & Ha & HS) by (repeat split; apply Z.pow_pos_nonneg; lia).
  rewrite !Z.pow_add_r by lia.
  revert HP HR Ha HS Herr_r Herr_p HmW.
  generalize (2 ^ np) (2 ^ nr) (2 ^ k) (2 ^ s). intros P R a S.
  intros HP HR Ha HS Herr_r Herr_p HmW.
  rewrite HmW in Herr_p.
  set (x := Z.pos mp * P) in *.
  set (y := Z.pos mr * R) in *.
  set (z := W * a * Z.pos mr) in *.
  assert (2 ^ 52 * P ≤ x) as Hx.
  { unfold x. apply Z.mul_le_mono_nonneg_r; lia. }
  assert (2 ^ 52 * R ≤ y) as Hy.
  { unfold y. apply Z.mul_le_mono_nonneg_r; lia. }
  assert (x * (2 ^ 53 - 1) ≤ 2 ^ 53 * z ∧ 2 ^ 53 * z ≤ x * (2 ^ 53 + 1))
    as [Hx1 Hx2] by lia.
  set (v := y * Wn) in *.
  set (u := Hn * S) in *.
  assert (0 < R * Wn) as HRW by (apply Z.mul_pos_pos; lia).
  assert (2 ^ 52 * (R * Wn) ≤ v) as Hv.
  { unfold v. rewrite Z.mul_assoc. apply Z.mul_le_mono_nonneg_r; lia. }
  replace (Wn * R) with (R * Wn) in Herr_r by ring.
  assert (v * (2 ^ 53 - 1) ≤ 2 ^ 53 * u ∧ 2 ^ 53 * u ≤ v * (2 ^ 53 + 1))
    as [Hv1 Hv2] by lia.
  replace (Z.pos mp * (P * R)) with (x * R) by (unfold x; ring).
  assert (0 < a * S) as HC by (apply Z.mul_pos_pos; lia).
  assert (0 ≤ x * R) as HA by (apply Z.mul_nonneg_nonneg; lia).
  assert (0 ≤ a * y) as HB by (apply Z.mul_nonneg_nonneg; lia).
  assert (0 ≤ x * R / (a * S)) by (apply Z.div_pos; lia).
  split; [done|].
  apply (height_arith (2 ^ 53) (x * R) (a * y) (a * S) W Hn Wn);
    try lia.
  - replace (2 ^ 53 * (W * (a * y))) with (2 ^ 53 * z * R)
      by (unfold z, y; ring).
    replace (x * R * (2 ^ 53 - 1)) with (x * (2 ^ 53 - 1) * R) by ring.
    apply Z.mul_le_mono_nonneg_r; lia.
  - replace (2 ^ 53 * (W * (a * y))) with (2 ^ 53 * z * R)
      by (unfold z, y; ring).
    replace (x * R * (2 ^ 53 + 1)) with (x * (2 ^ 53 + 1) * R) by ring.
    apply Z.mul_le_mono_nonneg_r; lia.
  - replace (a * y * Wn * (2 ^ 53 - 1)) with (a * (v * (2 ^ 53 - 1)))
      by (unfold v; ring).
    replace (2 ^ 53 * (Hn * (a * S))) with (a * (2 ^ 53 * u))
      by (unfold u; ring).
    apply Z.mul_le_mono_nonneg_l; lia.
  - replace (a * y * Wn * (2 ^ 53 + 1)) with (a * (v * (2 ^ 53 + 1)))
      by (unfold v; ring).
    replace (2 ^ 53 * (Hn * (a * S))) with (a * (2 ^ 53 * u))
      by (unfold u; ring).
    apply Z.mul_le_mono_nonneg_l; lia.
Qed.

(** With no explicit height, for a requested width [W] and native
    dimensions [Wn] and [Hn] with [W * Hn + Wn] at most 2^52, the derived
    height is the floor of [W * Hn / Wn] or one less, and it is that floor
    whenever [Wn] does not divide [W * Hn]. *)
Lemma resolved_height_near_floor W img :
  0 < W → 0 < PIL.width img → 0 < PIL.height img →
  W * PIL.height img + PIL.width img ≤ 2 ^ 52 →
  ∃ h,
    resolved_height W None img = inr h
    ∧ W * PIL.height img / PIL.width img - 1 ≤ h
        ≤ W * PIL.height img / PIL.width img
    ∧ ((W * PIL.height img) mod PIL.width img ≠ 0 →
       h = W * PIL.height img / PIL.width img).
Proof.
  intros HW HWn HHn Hsmall.
  destruct (derive_height_bounds W img HW HWn HHn Hsmall)
    as (h & Hh & _ & Hrange & Hexact).
  by exists h.
Qed.


(** ** The loader, case by case *)

Lemma decode_image path f img : decode path f = inr img → f = ImageFile img.
Proof. destruct f; simpl; congruence. Qed.

(** The loader after an exception [e], in a world [w]. *)
Lemma loader_handler path e w :
  (match e with
   | FileNotFoundError _ =>
       print_stderr ("Error: Input file '" +:+ path +:+ "' not found.");;
       sys_exit 1
   | Exception msg =>
       print_stderr ("Error processing image: " +:+ msg);; sys_exit 1
   end : M (list (list bool) * Z * Z)) w
  = (Exit 1, add_stderr (loader_message path e) w).
Proof. by destruct e. Qed.

Lemma load_eq path W H t inv w :
  load_and_process_image resize path W H t inv w
  = let w1 := log_call (OpenCall path) w in
    let fail e w' := (Exit 1, add_stderr (loader_message path e) w') in
    match files w !! path with
    | None =>
        fail (FileNotFoundError
                ("[Errno 2] No such file or directory: '" +:+ path +:+ "'")) w1
    | Some f =>
        match decode path f with
        | inl e => fail e w1
        | inr img =>
            match resolved_height W H img with
            | inl e => fail e w1
            | inr h =>
                let w2 := log_call (ResizeCall W h) w1 in
                match resize img W h with
                | inl e => fail e w2
                | inr resized =>
                    match threshold_rows resized W h t inv with
                    | inl e => fail e w2
                    | inr pixels => (Ok (pixels, W, h), w2)
                    end
                end
            end
        end
    end.
Proof.
  unfold load_and_process_image, try_except.
  unfold mbind at 1 2 3 4. unfold M_bind, Image_open_L.
  destruct (files w !! path) as [f|]; simpl; [|done].
  unfold lift at 1. destruct (decode path f) as [e|img]; simpl;
    [by rewrite loader_handler|].
  destruct H as [h|]; simpl.
  - unfold mret at 1. unfold M_ret, Image_resize, lift at 1.
    destruct (resize img W h) as [e|resized]; simpl;
      [by rewrite loader_handler|].
    unfold lift. destruct (threshold_rows resized W h t inv); simpl;
      [by rewrite loader_handler|done].
  - unfold lift at 1. destruct (derive_height W img) as [e|h]; simpl;
      [by rewrite loader_handler|].
    unfold Image_resize, lift at 1.
    destruct (resize img W h) as [e|resized]; simpl;
      [by rewrite loader_handler|].
    unfold lift. destruct (threshold_rows resized W h t inv); simpl;
      [by rewrite loader_handler|done].
Qed.

(** Case analysis along the loader: the file, the height, the resampling
    and the grid. *)
Ltac loader_cases :=
  rewrite ?load_eq; simpl; repeat (case_match; simpl).

(** What a call of the loader that returns has done. *)
Lemma load_returns path W H t inv w pixels W' H' w' :
  load_and_process_image resize path W H t inv w = (Ok (pixels, W', H'), w') →
  ∃ img resized,
    files w !! path = Some (ImageFile img)
    ∧ resolved_height W H img = inr H'
    ∧ resize img W H' = inr resized
    ∧ threshold_rows resized W H' t inv = inr pixels
    ∧ W' = W
    ∧ w' = log_call (ResizeCall W H') (log_call (OpenCall path) w).
Proof.
  loader_cases; try done.
  intros [= <- <- <- <-].
  match goal with
  | Hdec : decode _ _ = inr _ |- _ => apply decode_image in Hdec as ->
  end.
  eauto 10.
Qed.

(** The loader handles every exception itself: it returns or exits with
    status 1. *)
Lemma load_returns_or_exits path W H t inv w :
  (∃ r, (load_and_process_image resize path W H t inv w).1 = Ok r)
  ∨ (load_and_process_image resize path W H t inv w).1 = Exit 1.
Proof.
  loader_cases; eauto.
Qed.

(** C4, amended. With no explicit height, for a requested width [W] and
    native dimensions [Wn] and [Hn] with [W * Hn + Wn] at most 2^52, the
    height the loader resolves and returns is the floor of [W * Hn / Wn]
    or one less, and it is that floor whenever [Wn] does not divide
    [W * Hn]. *)
Theorem derived_height_near_floor W img :
  0 < W → 0 < PIL.width img → 0 < PIL.height img →
  W * PIL.height img + PIL.width img ≤ 2 ^ 52 →
  ∃ h,
    resolved_height W None img = inr h
    ∧ W * PIL.height img / PIL.width img - 1 ≤ h
        ≤ W * PIL.height img / PIL.width img
    ∧ ((W * PIL.height img) mod PIL.width img ≠ 0 →
       h = W * PIL.height img / PIL.width img)
    ∧ (∀ path t inv w pixels W' H' w',
         files w !! path = Some (ImageFile img) →
         load_and_process_image resize path W None t inv w
         = (Ok (pixels, W', H'), w') →
         H' = h).
Proof.
  intros HW HWn HHn Hsmall.
  destruct (resolved_height_near_floor W img HW HWn HHn Hsmall)
    as (h & Hh & Hrange & Hexact).
  exists h. repeat split; try done; try lia.
  intros path t inv w pixels W' H' w' Hfile Hload.
  destruct (load_returns _ _ _ _ _ _ _ _ _ _ Hload)
    as (img' & resized & Hfile' & Hheight & _).
  congruence.
Qed.

Lemma threshold_rows_strict img W H t pixels x y :
  threshold_rows img W H t false = inr pixels →
  0 ≤ x < W → 0 ≤ y < H →
  ∃ v row,
    PIL.getpixel img x y = inr v
    ∧ pixels !! Z.to_nat y = Some row
    ∧ row !! Z.to_nat x = Some (v <? t).
Proof.
  intros Hrows Hx Hy.
  destruct (threshold_rows_entry _ _ _ _ _ _ _ _ Hrows Hx Hy)
    as (v & row & Hv & Hrow & Hentry).
  by exists v, row.
Qed.

(** C1. Without [invert], the grid entry of a resized pixel of intensity
    [v] is [v < threshold], for every [v] and every threshold (so for those
    in 0..255): a pixel whose intensity equals the threshold is light, and
    on a run with a threshold lowered to [v] or below the pixel is light. *)
Theorem threshold_is_strict path W H t w pixels W' H' w' x y :
  load_and_process_image resize path W H t false w
  = (Ok (pixels, W', H'), w') →
  0 ≤ x < W' → 0 ≤ y < H' →
  ∃ img resized v row,
    files w !! path = Some (ImageFile img)
    ∧ resize img W' H' = inr resized
    ∧ PIL.getpixel resized x y = inr v
    ∧ pixels !! Z.to_nat y = Some row
    ∧ row !! Z.to_nat x = Some (v <? t)
    ∧ (v = t → row !! Z.to_nat x = Some false)
    ∧ (∀ t' pixels' w'', t' ≤ v →
         load_and_process_image resize path W H t' false w
         = (Ok (pixels', W', H'), w'') →
         ∃ row', pixels' !! Z.to_nat y = Some row'
                 ∧ row' !! Z.to_nat x = Some false).
Proof.
  intros Hload Hx Hy.
  destruct (load_returns _ _ _ _ _ _ _ _ _ _ Hload)
    as (img & resized & Hfile & Hheight & Hresize & Hrows & -> & _).
  destruct (threshold_rows_strict _ _ _ _ _ _ _ Hrows Hx Hy)
    as (v & row & Hv & Hrow & Hentry).
  exists img, resized, v, row. repeat split; try done.
  - intros ->. by rewrite Hentry, Z.ltb_irrefl.
  - intros t' pixels' w'' Ht' Hload'.
    destruct (load_returns _ _ _ _ _ _ _ _ _ _ Hload')
      as (img' & resized' & Hfile' & _ & Hresize' & Hrows' & _ & _).
    assert (resized' = resized) as -> by congruence.
    destruct (threshold_rows_strict _ _ _ _ _ _ _ Hrows' Hx Hy)
      as (v' & row' & Hv' & Hrow' & Hentry').
    exists row'. split; [done|]. rewrite Hentry'.
    assert (v' = v) as -> by congruence.
    f_equal. apply Z.ltb_ge. lia.
Qed.

(** C2. A call of the loader that returns with width [W'] > 0 and height
    [H'] > 0 returns a grid of exactly [H'] rows of exactly [W'] entries. *)
Theorem grid_has_resolved_shape path W H t inv w pixels W' H' w' :
  load_and_process_image resize path W H t inv w = (Ok (pixels, W', H'), w') →
  0 < W' → 0 < H' →
  Z.of_nat (length pixels) = H'
  ∧ Forall (λ row : list bool, Z.of_nat (length row) = W') pixels.
Proof.
  intros Hload HW HH.
  destruct (load_returns _ _ _ _ _ _ _ _ _ _ Hload)
    as (img & resized & _ & _ & _ & Hrows & -> & _).
  destruct (threshold_rows_shape _ _ _ _ _ _ Hrows) as [Hlen Hall].
  split; [lia|].
  eapply Forall_impl; [exact Hall|]. simpl. intros row Hrow. lia.
Qed.

(** C3. With the image, the width, the height and the threshold fixed, the
    run of the loader with [invert] ends as the run without it does, and
    the grid it returns is the other grid with every boolean negated. *)
Theorem invert_complements_grid path W H t w :
  load_and_process_image resize path W H t true w
  = (outcome_map complement_grid
       (load_and_process_image resize path W H t false w).1,
     (load_and_process_image resize path W H t false w).2).
Proof.
  rewrite !load_eq. simpl.
  destruct (files w !! path) as [f|]; [|done].
  destruct (decode path f) as [e|img]; [done|].
  destruct (resolved_height W H img) as [e|h]; [done|].
  destruct (resize img W h) as [e|resized]; [done|].
  rewrite threshold_rows_invert.
  unfold mbind, result_mbind, mret, result_ret.
  by destruct (threshold_rows resized W h t false) as [e|px].
Qed.

(** ** The sheet of the renderer *)

Lemma write_pixel_cells r c b ws :
  openpyxl.cells (write_pixel r c b ws)
  = <[(r, c) := painted b]> (openpyxl.cells ws).
Proof.
  unfold write_pixel, openpyxl.touch_cell, openpyxl.alter_cell, painted.
  destruct (openpyxl.cells ws !! (r, c)) as [x|] eqn:Hx; simpl.
  - apply map_eq. intros k. rewrite !lookup_alter, lookup_insert.
    case_decide; [|done]. rewrite decide_True by done. by rewrite Hx.
  - by rewrite !alter_insert_eq.
Qed.

Lemma write_pixel_rest r c b ws :
  openpyxl.title (write_pixel r c b ws) = openpyxl.title ws
  ∧ openpyxl.column_dimensions (write_pixel r c b ws)
    = openpyxl.column_dimensions ws
  ∧ openpyxl.row_dimensions (write_pixel r c b ws)
    = openpyxl.row_dimensions ws
  ∧ openpyxl.showGridLines (write_pixel r c b ws)
    = openpyxl.showGridLines ws.
Proof.
  unfold write_pixel, openpyxl.touch_cell, openpyxl.alter_cell.
  by destruct (openpyxl.cells ws !! (r, c)).
Qed.

(** The inner loop, started at column [k]. *)
Lemma write_row_cells r k (row : list bool) ws r' c' :
  openpyxl.cells
    (foldl (λ ws '(col_idx, is_black), write_pixel r col_idx is_black ws)
       ws (enumerate k row)) !! (r', c')
  = match (if decide (r' = r ∧ k ≤ c') then row !! Z.to_nat (c' - k)
           else None) with
    | Some b => Some (painted b)
    | None => openpyxl.cells ws !! (r', c')
    end.
Proof.
  revert k ws. induction row as [|b row IH]; intros k ws; simpl.
  - by case_decide.
  - rewrite IH, write_pixel_cells. clear IH.
    destruct (decide (r' = r ∧ k ≤ c')) as [[-> Hk]|Hne].
    + destruct (decide (c' = k)) as [->|Hck].
      * rewrite decide_False by lia. rewrite lookup_insert_eq.
        by replace (Z.to_nat (k - k)) with 0%nat by lia.
      * rewrite decide_True by lia.
        replace (Z.to_nat (c' - k)) with (S (Z.to_nat (c' - (k + 1))))
          by lia.
        simpl. destruct (row !! Z.to_nat (c' - (k + 1))); [done|].
        rewrite lookup_insert_ne; [done|]. intros [=]. lia.
    + rewrite decide_False by lia.
      rewrite lookup_insert_ne; [done|]. intros [=]. lia.
Qed.

Lemma write_row_rest r k (row : list bool) ws :
  let ws' :=
    foldl (λ ws '(col_idx, is_black), write_pixel r col_idx is_black ws)
      ws (enumerate k row) in
  openpyxl.title ws' = openpyxl.title ws
  ∧ openpyxl.column_dimensions ws' = openpyxl.column_dimensions ws
  ∧ openpyxl.row_dimensions ws' = openpyxl.row_dimensions ws
  ∧ openpyxl.showGridLines ws' = openpyxl.showGridLines ws.
Proof.
  revert k ws. induction row as [|b row IH]; intros k ws; simpl; [done|].
  destruct (IH (k + 1) (write_pixel r k b ws)) as (-> & -> & -> & ->).
  apply write_pixel_rest.
Qed.

(** The outer loop, started at row [k]. *)
Lemma write_rows_cells k (pixels : list (list bool)) ws r c :
  openpyxl.cells
    (foldl (λ ws '(row_idx, row),
              foldl (λ ws '(col_idx, is_black),
                       write_pixel row_idx col_idx is_black ws)
                ws (enumerate 1 row))
       ws (enumerate k pixels)) !! (r, c)
  = match (if decide (k ≤ r ∧ 1 ≤ c)
           then row ← pixels !! Z.to_nat (r - k); row !! Z.to_nat (c - 1)
           else None) with
    | Some b => Some (painted b)
    | None => openpyxl.cells ws !! (r, c)
    end.
Proof.
  revert k ws. induction pixels as [|row pixels IH]; intros k ws; simpl.
  - by case_decide.
  - rewrite IH, write_row_cells. clear IH.
    destruct (decide (k ≤ r ∧ 1 ≤ c)) as [[Hk Hc]|Hne].
    + destruct (decide (r = k)) as [->|Hrk].
      * rewrite (decide_False (P := k + 1 ≤ k ∧ 1 ≤ c)) by lia.
        rewrite decide_True by lia.
        by replace (Z.to_nat (k - k)) with 0%nat by lia.
      * rewrite (decide_True (P := k + 1 ≤ r ∧ 1 ≤ c)) by lia.
        replace (Z.to_nat (r - k)) with (S (Z.to_nat (r - (k + 1))))
          by lia.
        simpl.
        destruct (pixels !! Z.to_nat (r - (k + 1)) ≫= λ row0,
                    row0 !! Z.to_nat (c - 1)); [done|].
        by rewrite decide_False by lia.
    + rewrite (decide_False (P := k + 1 ≤ r ∧ 1 ≤ c)) by lia.
      destruct (decide (r = k ∧ 1 ≤ c)) as [[-> ?]|?]; [lia|done].
Qed.

Lemma write_pixels_cells pixels ws r c :
  openpyxl.cells (write_pixels pixels ws) !! (r, c)
  = match grid_at pixels r c with
    | Some b => Some (painted b)
    | None => openpyxl.cells ws !! (r, c)
    end.
Proof. apply write_rows_cells. Qed.

Lemma write_rows_rest k (pixels : list (list bool)) ws :
  let ws' :=
    foldl (λ ws '(row_idx, row),
             foldl (λ ws '(col_idx, is_black),
                      write_pixel row_idx col_idx is_black ws)
               ws (enumerate 1 row))
      ws (enumerate k pixels) in
  openpyxl.title ws' = openpyxl.title ws
  ∧ openpyxl.column_dimensions ws' = openpyxl.column_dimensions ws
  ∧ openpyxl.row_dimensions ws' = openpyxl.row_dimensions ws
  ∧ openpyxl.showGridLines ws' = openpyxl.showGridLines ws.
Proof.
  revert k ws.
  induction pixels as [|row pixels IH]; intros k ws; simpl; [done|].
  destruct (IH (k + 1)
    (foldl (λ ws '(col_idx, is_black), write_pixel k col_idx is_black ws)
       ws (enumerate 1 row))) as (-> & -> & -> & ->).
  apply write_row_rest.
Qed.

Lemma write_pixels_rest pixels ws :
  openpyxl.title (write_pixels pixels ws) = openpyxl.title ws
  ∧ openpyxl.column_dimensions (write_pixels pixels ws)
    = openpyxl.column_dimensions ws
  ∧ openpyxl.row_dimensions (write_pixels pixels ws)
    = openpyxl.row_dimensions ws
  ∧ openpyxl.showGridLines (write_pixels pixels ws)
    = openpyxl.showGridLines ws.
Proof. apply write_rows_rest. Qed.

(** The loop over the columns, for any list of column indices. *)
Lemma size_columns_cells (xs : list Z) ws r c :
  openpyxl.cells
    (foldl (λ ws col_idx,
              openpyxl.set_column_width (column_letter col_idx)
                cell_size_width (openpyxl.touch_cell 1 col_idx ws))
       ws xs) !! (r, c)
  = match openpyxl.cells ws !! (r, c) with
    | Some x => Some x
    | None => if decide (r = 1 ∧ c ∈ xs) then Some openpyxl.blank else None
    end.
Proof.
  revert ws. induction xs as [|x xs IH]; intros ws; simpl.
  - destruct (openpyxl.cells ws !! (r, c)); [done|].
    rewrite decide_False; [done|]. intros [_ Hin]. by apply elem_of_nil in Hin.
  - rewrite IH. clear IH. unfold openpyxl.touch_cell.
    destruct (openpyxl.cells ws !! (1, x)) as [y|] eqn:Hy; simpl.
    + destruct (openpyxl.cells ws !! (r, c)) eqn:Hrc; [done|].
      assert (¬ (r = 1 ∧ c = x)) by (intros [-> ->]; congruence).
      apply decide_ext. rewrite elem_of_cons. tauto.
    + destruct (decide ((r, c) = (1, x))) as [[= -> ->]|Hne].
      * rewrite lookup_insert_eq, Hy. rewrite decide_True; [done|].
        split; [done|]. apply elem_of_cons. by left.
      * rewrite lookup_insert_ne by done.
        destruct (openpyxl.cells ws !! (r, c)); [done|].
        assert (¬ (r = 1 ∧ c = x)) by (intros [-> ->]; congruence).
        apply decide_ext. rewrite elem_of_cons. tauto.
Qed.

Lemma size_columns_widths (xs : list Z) ws l :
  openpyxl.column_dimensions
    (foldl (λ ws col_idx,
              openpyxl.set_column_width (column_letter col_idx)
                cell_size_width (openpyxl.touch_cell 1 col_idx ws))
       ws xs) !! l
  = if decide (l ∈ column_letter <$> xs) then Some cell_size_width
    else openpyxl.column_dimensions ws !! l.
Proof.
  revert ws. induction xs as [|x xs IH]; intros ws; simpl.
  - done.
  - rewrite IH. clear IH.
    assert (openpyxl.column_dimensions (openpyxl.touch_cell 1 x ws)
            = openpyxl.column_dimensions ws) as Htouch.
    { unfold openpyxl.touch_cell.
      by destruct (openpyxl.cells ws !! (1, x)). }
    simpl. rewrite Htouch, lookup_insert.
    destruct (decide (l ∈ column_letter <$> xs)) as [Hin|Hnin].
    + rewrite decide_True; [done|]. apply elem_of_cons. by right.
    + destruct (decide (column_letter x = l)) as [<-|Hl].
      * rewrite decide_True; [done|]. apply elem_of_cons. by left.
      * rewrite decide_False; [done|].
        intros [?|?]%elem_of_cons; [congruence|done].
Qed.

Lemma size_columns_rest (xs : list Z) ws :
  let ws' :=
    foldl (λ ws col_idx,
             openpyxl.set_column_width (column_letter col_idx)
               cell_size_width (openpyxl.touch_cell 1 col_idx ws))
      ws xs in
  openpyxl.row_dimensions ws' = openpyxl.row_dimensions ws
  ∧ openpyxl.showGridLines ws' = openpyxl.showGridLines ws.
Proof.
  revert ws. induction xs as [|x xs IH]; intros ws; simpl; [done|].
  destruct (IH (openpyxl.set_column_width (column_letter x) cell_size_width
                  (openpyxl.touch_cell 1 x ws))) as (-> & ->).
  unfold openpyxl.touch_cell. by destruct (openpyxl.cells ws !! (1, x)).
Qed.

(** The loop over the rows, for any list of row indices. *)
Lemma size_rows_heights (xs : list Z) ws r :
  openpyxl.row_dimensions
    (foldl (λ ws row_idx,
              openpyxl.set_row_height row_idx cell_size_height ws) ws xs) !! r
  = if decide (r ∈ xs) then Some cell_size_height
    else openpyxl.row_dimensions ws !! r.
Proof.
  revert ws. induction xs as [|x xs IH]; intros ws; simpl.
  - done.
  - rewrite IH. clear IH. simpl. rewrite lookup_insert.
    destruct (decide (r ∈ xs)).
    + rewrite decide_True; [done|]. apply elem_of_cons. by right.
    + destruct (decide (x = r)) as [->|Hne].
      * rewrite decide_True; [done|]. apply elem_of_cons. by left.
      * rewrite decide_False; [done|].
        intros [?|?]%elem_of_cons; [congruence|done].
Qed.

Lemma size_rows_rest (xs : list Z) ws :
  let ws' :=
    foldl (λ ws row_idx,
             openpyxl.set_row_height row_idx cell_size_height ws) ws xs in
  openpyxl.cells ws' = openpyxl.cells ws
  ∧ openpyxl.column_dimensions ws' = openpyxl.column_dimensions ws
  ∧ openpyxl.showGridLines ws' = openpyxl.showGridLines ws.
Proof.
  revert ws. induction xs as [|x xs IH]; intros ws; simpl; [done|].
  by destruct (IH (openpyxl.set_row_height x cell_size_height ws))
    as (-> & -> & ->).
Qed.

(** The sheet that is built when every column has its letter. *)
Lemma built_sheet_cells pixels W H r c :
  openpyxl.cells (built_sheet column_letter pixels W H) !! (r, c)
  = match grid_at pixels r c with
    | Some b => Some (painted b)
    | None => if decide (r = 1 ∧ 1 ≤ c ≤ W) then Some openpyxl.blank else None
    end.
Proof.
  unfold built_sheet, size_rows. simpl.
  destruct (size_rows_rest (range2 1 (H + 1))
    (foldl (λ ws col_idx,
              openpyxl.set_column_width (column_letter col_idx)
                cell_size_width (openpyxl.touch_cell 1 col_idx ws))
       (write_pixels pixels (openpyxl.set_title "Pixel Art" openpyxl.new_sheet))
       (range2 1 (W + 1)))) as (-> & _ & _).
  rewrite size_columns_cells, write_pixels_cells. simpl.
  destruct (grid_at pixels r c); [done|].
  rewrite lookup_empty. apply decide_ext.
  rewrite elem_of_range2. lia.
Qed.

Lemma built_sheet_widths pixels W H l :
  openpyxl.column_dimensions (built_sheet column_letter pixels W H) !! l
  = if decide (l ∈ column_letter <$> range2 1 (W + 1))
    then Some cell_size_width else None.
Proof.
  unfold built_sheet, size_rows. simpl.
  rewrite (proj1 (proj2 (size_rows_rest _ _))).
  rewrite size_columns_widths.
  by rewrite (proj1 (proj2 (write_pixels_rest _ _))).
Qed.

Lemma built_sheet_heights pixels W H r :
  openpyxl.row_dimensions (built_sheet column_letter pixels W H) !! r
  = if decide (r ∈ range2 1 (H + 1)) then Some cell_size_height else None.
Proof.
  unfold built_sheet, size_rows. simpl. rewrite size_rows_heights.
  rewrite (proj1 (size_columns_rest _ _)).
  by rewrite (proj1 (proj2 (proj2 (write_pixels_rest _ _)))).
Qed.




(** The loop over the columns stops at the first column without a
    letter. *)
Lemma size_column_lettered ws c :
  1 ≤ c ≤ 18278 →
  size_column column_letter ws c
  = inr (openpyxl.set_column_width (column_letter c) cell_size_width
           (openpyxl.touch_cell 1 c ws)).
Proof.
  intros Hc. unfold size_column, get_column_letter.
  by rewrite (proj2 (Z.leb_le 1 c)), (proj2 (Z.leb_le c 18278)) by lia.
Qed.

Lemma size_columns_lettered (xs : list Z) ws :
  Forall (λ c, 1 ≤ c ≤ 18278) xs →
  for_each (size_column column_letter) xs ws
  = inr (foldl (λ ws col_idx,
                  openpyxl.set_column_width (column_letter col_idx)
                    cell_size_width (openpyxl.touch_cell 1 col_idx ws))
           ws xs).
Proof.
  intros Hxs. revert ws. induction Hxs as [|c xs Hc _ IH]; intros ws; [done|].
  simpl. rewrite (size_column_lettered _ _ Hc). apply IH.
Qed.

Lemma size_columns_eq W ws :
  size_columns column_letter W ws
  = if decide (W ≤ 18278)
    then inr (foldl (λ ws col_idx,
                       openpyxl.set_column_width (column_letter col_idx)
                         cell_size_width (openpyxl.touch_cell 1 col_idx ws))
                ws (range2 1 (W + 1)))
    else inl (column_index_error 18279).
Proof.
  unfold size_columns. case_decide as HW.
  - apply size_columns_lettered, Forall_forall.
    intros c Hc%elem_of_range2. lia.
  - unfold range2.
    replace (W + 1 - 1) with (18278 + (1 + (W - 18279))) by lia.
    rewrite seqZ_app, (seqZ_app _ 1) by lia.
    rewrite for_each_app, size_columns_lettered.
    + change (seqZ (1 + 18278) 1) with [18279]. done.
    + apply Forall_forall. intros c Hc%elem_of_seqZ. lia.
Qed.

Lemma render_sheet_eq pixels W H :
  render_sheet column_letter pixels W H
  = if decide (W ≤ 18278) then inr (built_sheet column_letter pixels W H)
    else inl (column_index_error 18279).
Proof.
  unfold render_sheet. rewrite size_columns_eq. by case_decide.
Qed.






(** ** The driver, case by case *)

Lemma load_keeps_save_error path W H t inv w :
  save_error (load_and_process_image resize path W H t inv w).2
  = save_error w.
Proof.
  by loader_cases.
Qed.

Lemma main_eq args w :
  main resize column_letter args w
  = if width args <=? 0 then (Exit 1, add_stderr width_error w)
    else if match height args with Some h => h <=? 0 | None => false end
    then (Exit 1, add_stderr height_error w)
    else if negb ((0 <=? threshold args) && (threshold args <=? 255))
    then (Exit 1, add_stderr threshold_error w)
    else
      match load_and_process_image resize (input args) (width args)
              (height args) (threshold args) (invert args)
              (add_stdout (loading_line args) w) with
      | (Ok (pixels, final_width, final_height), w2) =>
          after_load column_letter args pixels final_width final_height w2
      | (Raise e, w2) => (Raise e, w2)
      | (Exit c, w2) => (Exit c, w2)
      end.
Proof.
  unfold main, when.
  destruct (width args <=? 0); [done|].
  destruct (match height args with Some h => h <=? 0 | None => false end);
    [done|].
  destruct (negb ((0 <=? threshold args) && (threshold args <=? 255)));
    [done|].
  unfold mbind at 1 2 3 4 5. unfold M_bind. simpl.
  fold (loading_line args).
  destruct (load_and_process_image resize (input args) (width args)
              (height args) (threshold args) (invert args)
              (add_stdout (loading_line args) w))
    as [[[[pixels fw] fh]|e|c] w2]; [|done..].
  unfold after_load, mbind, M_bind, create_pixel_art_excel, try_except,
    wb_save, lift, print_check_mark. simpl.
  destruct (render_sheet column_letter pixels fw fh) as [e|ws]; [done|].
  unfold mbind, M_bind. simpl.
  destruct (save_error w2 (output args)) as [failure|]; [done|]. simpl.
  by destruct (check_mark_error w2).
Qed.


Lemma main_valid args w :
  valid_args args →
  main resize column_letter args w
  = match load_and_process_image resize (input args) (width args)
            (height args) (threshold args) (invert args)
            (add_stdout (loading_line args) w) with
    | (Ok (pixels, final_width, final_height), w2) =>
        after_load column_letter args pixels final_width final_height w2
    | (Raise e, w2) => (Raise e, w2)
    | (Exit c, w2) => (Exit c, w2)
    end.
Proof.
  intros (Hw & Hh & Ht1 & Ht2). rewrite main_eq.
  rewrite (proj2 (Z.leb_gt _ _)) by lia.
  assert (match height args with Some h => h <=? 0 | None => false end
          = false) as ->.
  { destruct (height args) as [h|]; [|done]. apply Z.leb_gt. by apply Hh. }
  by rewrite (proj2 (Z.leb_le _ _) Ht1), (proj2 (Z.leb_le _ _) Ht2).
Qed.

(** C5. When the width is not positive, or an explicit height is not
    positive, or the threshold is outside 0..255, the run prints one line
    to the error stream and ends with status 1; it prints nothing else,
    leaves every file as it was and makes no call that opens or saves a
    file. *)
Theorem invalid_arguments_rejected args w :
  width args ≤ 0
  ∨ (∃ h, height args = Some h ∧ h ≤ 0)
  ∨ threshold args < 0 ∨ 255 < threshold args →
  ∃ msg,
    run resize column_letter args w = (1, add_stderr msg w)
    ∧ msg ∈ [width_error; height_error; threshold_error]
    ∧ one_line msg = true
    ∧ stderr (run resize column_letter args w).2 = stderr w ++ [msg]
    ∧ stdout (run resize column_letter args w).2 = stdout w
    ∧ files (run resize column_letter args w).2 = files w
    ∧ calls (run resize column_letter args w).2 = calls w.
Proof.
  intros Hbad. unfold run. rewrite main_eq.
  destruct (width args <=? 0) eqn:Hw.
  { exists width_error. repeat split; try done.
    rewrite !elem_of_cons. tauto. }
  destruct (match height args with Some h => h <=? 0 | None => false end)
    eqn:Hh.
  { exists height_error. repeat split; try done.
    rewrite !elem_of_cons. tauto. }
  destruct (negb ((0 <=? threshold args) && (threshold args <=? 255)))
    eqn:Ht.
  { exists threshold_error. repeat split; try done.
    rewrite !elem_of_cons. tauto. }
  exfalso. apply Z.leb_gt in Hw.
  apply negb_false_iff, andb_true_iff in Ht as [Ht1%Z.leb_le Ht2%Z.leb_le].
  destruct Hbad as [?|[(h & Hsome & Hle)|[?|?]]]; try lia.
  rewrite Hsome in Hh. apply Z.leb_gt in Hh. lia.
Qed.








(** ** The loader: effects and results *)


(** Case analysis on what decides a run, innermost first. *)
Ltac inner_cases :=
  repeat match goal with
         | |- context [match ?x with _ => _ end] =>
             lazymatch x with
             | context [match _ with _ => _ end] => fail
             | _ => destruct x eqn:?; simpl
             end
         end.


(** X2. A call of the loader that returns hands back the requested width,
    and the explicit height when one was given; it has opened the input
    path and called the resampling once, with exactly the dimensions it
    returns, and has printed nothing. *)
Theorem loader_returns_request path W H t inv w pixels W' H' w' :
  load_and_process_image resize path W H t inv w = (Ok (pixels, W', H'), w') →
  W' = W
  ∧ (∀ h, H = Some h → H' = h)
  ∧ calls w' = calls w ++ [OpenCall path; ResizeCall W' H']
  ∧ stdout w' = stdout w
  ∧ stderr w' = stderr w
  ∧ files w' = files w.
Proof.
  intros Hload.
  destruct (load_returns _ _ _ _ _ _ _ _ _ _ Hload)
    as (img & resized & _ & Hheight & _ & _ & -> & ->).
  repeat split; simpl.
  - intros h ->. simpl in Hheight. congruence.
  - by rewrite <- app_assoc.
Qed.

(** X3. An image without columns stops the loader only when the height is
    to be derived: the division raises, the loader reports "division by
    zero" and exits before it calls the resampling.  With an explicit
    height the resampling is called. *)
Theorem zero_width_image path W t inv w img :
  files w !! path = Some (ImageFile img) →
  PIL.width img = 0 →
  load_and_process_image resize path W None t inv w
  = (Exit 1,
     add_stderr "Error processing image: division by zero"
       (log_call (OpenCall path) w))
  ∧ ∀ h, calls (load_and_process_image resize path W (Some h) t inv w).2
         = calls w ++ [OpenCall path; ResizeCall W h].
Proof.
  intros Hfile Hzero. split.
  - rewrite load_eq. simpl. rewrite Hfile. simpl.
    unfold derive_height, PyFloat.int_truediv. by rewrite Hzero.
  - intros h. rewrite load_eq. simpl. rewrite Hfile. simpl.
    inner_cases; by rewrite <- app_assoc.
Qed.

Lemma threshold_rows_values img W H t inv :
  threshold_rows img W H t inv
  = (values ← pixel_values img W H;
     mret (map (map (λ v, classify v t inv)) values)).
Proof.
  unfold threshold_rows, pixel_values.
  rewrite <- (for_append_map _ (map (λ v, classify v t inv))).
  apply for_append_ext. intros y _.
  by rewrite <- (for_append_map _ (λ v, classify v t inv)).
Qed.

Lemma grid_at_map (f : bool → bool) pixels r c :
  grid_at (map (map f) pixels) r c = f <$> grid_at pixels r c.
Proof.
  unfold grid_at. case_decide; [|done].
  change (map (map f) pixels) with (map f <$> pixels).
  rewrite list_lookup_fmap.
  destruct (pixels !! Z.to_nat (r - 1)) as [row|]; [|done]. simpl.
  change (map f row) with (f <$> row). by rewrite list_lookup_fmap.
Qed.

(** X4. The threshold and [invert] never decide whether the loops fail:
    for any two thresholds and any two settings of [invert] the loops
    raise the same exception or raise none.  And raising the threshold
    never turns a dark pixel light: the grid at a threshold [t' >= t] has
    as many rows as the one at [t] and is dark wherever that one is (with
    [invert], light wherever that one is). *)
Theorem threshold_is_monotone img W H t t' inv inv' :
  (∀ e, threshold_rows img W H t inv = inl e
        ↔ threshold_rows img W H t' inv' = inl e)
  ∧ (t ≤ t' →
     ∀ pixels,
       threshold_rows img W H t inv = inr pixels →
       ∃ pixels',
         threshold_rows img W H t' inv = inr pixels'
         ∧ length pixels' = length pixels
         ∧ ∀ r c, grid_at pixels r c = Some (negb inv) →
                  grid_at pixels' r c = Some (negb inv)).
Proof.
  rewrite !threshold_rows_values.
  destruct (pixel_values img W H) as [e0|values]; simpl.
  { split; [done|]. by intros _ pixels [=]. }
  split; [done|]. intros Ht pixels [= <-].
  eexists. split; [reflexivity|].
  split; [by rewrite !length_map|].
  intros r c. unfold grid_at. case_decide; [|done].
  change (map ?f values) with (f <$> values).
  rewrite !list_lookup_fmap.
  destruct (values !! Z.to_nat (r - 1)) as [row|]; [|done]. simpl.
  change (map ?f row) with (f <$> row).
  rewrite !list_lookup_fmap.
  destruct (row !! Z.to_nat (c - 1)) as [v|]; [|done]. simpl.
  intros [= Hv]. f_equal. unfold classify in *.
  destruct (v <? t) eqn:Hlt; [|by destruct inv].
  apply Z.ltb_lt in Hlt. by rewrite (proj2 (Z.ltb_lt v t')) by lia.
Qed.

(** X5. Read over the whole of an image, the loops cannot fail: the grid
    of an image at its own size has one row per line of the image and one
    entry per pixel, the classification of that pixel. *)
Theorem grid_of_whole_image img t inv :
  threshold_rows img (PIL.width img) (PIL.height img) t inv
  = inr (map (λ y, map (λ x, classify (PIL.data img x y) t inv)
                     (range (PIL.width img)))
           (range (PIL.height img))).
Proof.
  unfold threshold_rows.
  apply for_append_total. intros y Hy%elem_of_range.
  apply for_append_total. intros x Hx%elem_of_range.
  unfold PIL.getpixel.
  rewrite (proj2 (Z.ltb_ge x 0)), (proj2 (Z.ltb_ge y 0)) by lia.
  rewrite (proj2 (Z.leb_le 0 x)), (proj2 (Z.leb_le 0 y)) by lia.
  by rewrite (proj2 (Z.ltb_lt x _)), (proj2 (Z.ltb_lt y _)) by lia.
Qed.

(** X6. At the edges the two loops read no pixel and cannot fail: for a
    height of zero or less the grid has no rows, and for a width of zero or
    less each of its rows is empty. *)
Theorem grid_at_the_edges img W H t inv :
  (H ≤ 0 → threshold_rows img W H t inv = inr [])
  ∧ (W ≤ 0 →
     threshold_rows img W H t inv = inr (replicate (Z.to_nat H) [])).
Proof.
  unfold threshold_rows, range. split.
  - intros HH. by rewrite (seqZ_nil 0 H HH).
  - intros HW. rewrite (seqZ_nil 0 W HW). simpl.
    rewrite (for_append_total _ (λ _, [])) by done.
    change (map ?f ?l) with (f <$> l).
    rewrite (const_fmap _ _ []) by done. by rewrite length_seqZ.
Qed.

(** ** The derived height, further *)

(** X7. For an image whose height is a whole multiple [k] of its width (a
    square image has [k = 1]) the two floating-point operations are exact:
    the derived height is [W * k], as long as the native height and
    [W * k] are below 2^53. *)
Theorem derived_height_of_whole_ratio W img k :
  0 < W → 0 < PIL.width img → 0 < k →
  PIL.height img = k * PIL.width img →
  PIL.height img < 2 ^ 53 → W * k < 2 ^ 53 →
  derive_height W img = inr (W * k).
Proof.
  destruct img as [Wn Hn data]. simpl. intros HW HWn Hk -> HHn HWk.
  assert (k < 2 ^ 53) by nia.
  destruct (of_int_spec k ltac:(lia)) as (mk & j & Hck & _).
  unfold derive_height. simpl.
  rewrite int_truediv_multiple, Hck by lia.
  cbn [mbind result_mbind result_bind mret result_ret].
  rewrite (int_mul_float_exact W k _ HW Hk HWk Hck).
  assert (0 < W * k) by nia.
  destruct (PyFloat.of_int (W * k)) as [e|f] eqn:Hf.
  { destruct (of_int_spec (W * k) ltac:(lia)) as (? & ? & ? & _). congruence. }
  cbn [mbind result_mbind result_bind mret result_ret].
  apply to_int_of_int with (z := W * k); [lia|done].
Qed.

(** X8. The derived height is at least 1 when the exact ratio
    [W * Hn / Wn] is at least 2, and when it is at least 1 and not a whole
    number (for [W * Hn + Wn] at most 2^52). *)
Theorem derived_height_positive W img :
  0 < W → 0 < PIL.width img → 0 < PIL.height img →
  W * PIL.height img + PIL.width img ≤ 2 ^ 52 →
  2 * PIL.width img ≤ W * PIL.height img
  ∨ (PIL.width img ≤ W * PIL.height img
     ∧ (W * PIL.height img) mod PIL.width img ≠ 0) →
  ∃ h, derive_height W img = inr h ∧ 1 ≤ h.
Proof.
  intros HW HWn HHn Hsmall Hratio.
  destruct (derive_height_bounds W img HW HWn HHn Hsmall)
    as (h & Hh & _ & [Hlow _] & Hexact).
  exists h. split; [done|].
  destruct Hratio as [Htwo|[Hone Hrem]].
  - assert (2 ≤ W * PIL.height img / PIL.width img); [|lia].
    apply Z.div_le_lower_bound; lia.
  - rewrite (Hexact Hrem). apply Z.div_le_lower_bound; lia.
Qed.

(** ** The renderer, further *)

Lemma painted_inj b b' : painted b = painted b' → b = b'.
Proof. by destruct b, b'. Qed.


(** X10. Rendering the complemented grid fails exactly when rendering the
    grid itself fails, with the same exception; otherwise it swaps the
    dark and the light cells and changes nothing else: blank and absent
    cells, column widths and row heights are those of the sheet of the grid
    itself. *)
Theorem complement_swaps_cells pixels W H :
  match render_sheet column_letter pixels W H,
        render_sheet column_letter (map (map negb) pixels) W H with
  | inr ws, inr ws' =>
      (∀ r c (b : bool),
         openpyxl.cells ws' !! (r, c) = Some (painted b)
         ↔ openpyxl.cells ws !! (r, c) = Some (painted (negb b)))
      ∧ (∀ r c,
           openpyxl.cells ws' !! (r, c) = Some openpyxl.blank
           ↔ openpyxl.cells ws !! (r, c) = Some openpyxl.blank)
      ∧ (∀ r c,
           openpyxl.cells ws' !! (r, c) = None
           ↔ openpyxl.cells ws !! (r, c) = None)
      ∧ openpyxl.column_dimensions ws' = openpyxl.column_dimensions ws
      ∧ openpyxl.row_dimensions ws' = openpyxl.row_dimensions ws
  | inl e, inl e' => e = e'
  | _, _ => False
  end.
Proof.
  rewrite !render_sheet_eq. case_decide; [|done].
  split; [|split; [|split; [|split]]].
  - intros r c b. rewrite !built_sheet_cells, grid_at_map.
    destruct (grid_at pixels r c) as [b0|]; simpl.
    + split; intros Heq%(inj Some)%painted_inj; subst;
        by rewrite ?negb_involutive.
    + case_decide; split; intros Heq; try done; by destruct b.
  - intros r c. rewrite !built_sheet_cells, grid_at_map.
    destruct (grid_at pixels r c) as [b0|]; simpl; [|done].
    split; intros Heq; by destruct b0.
  - intros r c. rewrite !built_sheet_cells, grid_at_map.
    by destruct (grid_at pixels r c) as [b0|].
  - apply map_eq. intros l. by rewrite !built_sheet_widths.
  - apply map_eq. intros r. by rewrite !built_sheet_heights.
Qed.


(** ** The driver, further *)

(** X12. The checks of the arguments run in a fixed order and the first
    one that fails is the one reported: the width before the height, the
    height before the threshold, each before the input path is looked
    at. *)
Theorem first_failed_check_reported args w :
  (width args ≤ 0 →
   run resize column_letter args w = (1, add_stderr width_error w))
  ∧ (0 < width args → (∃ h, height args = Some h ∧ h ≤ 0) →
     run resize column_letter args w = (1, add_stderr height_error w))
  ∧ (0 < width args → (∀ h, height args = Some h → 0 < h) →
     ¬ 0 ≤ threshold args ≤ 255 →
     run resize column_letter args w = (1, add_stderr threshold_error w)).
Proof.
  unfold run. rewrite main_eq. repeat split.
  - intros Hw. by rewrite (proj2 (Z.leb_le _ _) Hw).
  - intros Hw (h & -> & Hh).
    by rewrite (proj2 (Z.leb_gt _ _) Hw), (proj2 (Z.leb_le _ _) Hh).
  - intros Hw Hh Ht. rewrite (proj2 (Z.leb_gt _ _) Hw).
    assert (match height args with Some h => h <=? 0 | None => false end
            = false) as ->.
    { destruct (height args) as [h|]; [|done]. apply Z.leb_gt. by apply Hh. }
    assert (negb ((0 <=? threshold args) && (threshold args <=? 255))
            = true) as ->; [|done].
    apply negb_true_iff, andb_false_iff.
    destruct (Z.leb_spec 0 (threshold args)); [|by left].
    right. apply Z.leb_gt. lia.
Qed.

(** [main] up to the end of the loader, when the loader returns. *)
Lemma main_after_load args w img h resized pixels :
  valid_args args →
  files w !! input args = Some (ImageFile img) →
  resolved_height (width args) (height args) img = inr h →
  resize img (width args) h = inr resized →
  threshold_rows resized (width args) h (threshold args) (invert args)
  = inr pixels →
  main resize column_letter args w
  = after_load column_letter args pixels (width args) h
      (log_call (ResizeCall (width args) h)
         (log_call (OpenCall (input args))
            (add_stdout (loading_line args) w))).
Proof.
  intros Hvalid Hfile Hheight Hresize Hrows.
  rewrite (main_valid _ _ Hvalid), load_eq. simpl.
  rewrite Hfile. simpl. by rewrite Hheight, Hresize, Hrows.
Qed.

(** What a run that ends with status 0 went through. *)
Lemma run_success_inv args w :
  (run resize column_letter args w).1 = 0 →
  ∃ img h resized pixels ws,
    valid_args args
    ∧ files w !! input args = Some (ImageFile img)
    ∧ resolved_height (width args) (height args) img = inr h
    ∧ resize img (width args) h = inr resized
    ∧ threshold_rows resized (width args) h (threshold args) (invert args)
      = inr pixels
    ∧ render_sheet column_letter pixels (width args) h = inr ws
    ∧ save_error w (output args) = None
    ∧ check_mark_error w = None.
Proof.
  unfold run. rewrite main_eq.
  destruct (width args <=? 0) eqn:Hw; [done|].
  destruct (match height args with Some h => h <=? 0 | None => false end)
    eqn:Hh; [done|].
  destruct (negb ((0 <=? threshold args) && (threshold args <=? 255)))
    eqn:Ht; [done|].
  assert (valid_args args) as Hvalid.
  { apply Z.leb_gt in Hw.
    apply negb_false_iff, andb_true_iff in Ht as [Ht1%Z.leb_le Ht2%Z.leb_le].
    repeat split; try done.
    intros h Hsome. rewrite Hsome in Hh. by apply Z.leb_gt in Hh. }
  rewrite load_eq. simpl.
  destruct (files w !! input args) as [f|]; simpl; [|done].
  destruct (decode (input args) f) as [e|img] eqn:Hdec; simpl; [done|].
  apply decode_image in Hdec as ->.
  destruct (resolved_height (width args) (height args) img) as [e|h] eqn:?;
    simpl; [done|].
  destruct (resize img (width args) h) as [e|resized] eqn:?; simpl; [done|].
  destruct (threshold_rows resized (width args) h (threshold args)
              (invert args)) as [e|pixels] eqn:?; simpl; [done|].
  unfold after_load.
  destruct (render_sheet column_letter pixels (width args) h) as [e|ws] eqn:?;
    simpl; [done|].
  destruct (save_error w (output args)) as [failure|] eqn:?; simpl; [done|].
  destruct (check_mark_error w) as [e|] eqn:?; simpl; [done|].
  intros _. exists img, h, resized, pixels, ws.
  split; [exact Hvalid|]. by repeat split.
Qed.

(** [main] when nothing fails. *)
Lemma main_success_eq args w img h resized pixels ws :
  valid_args args →
  files w !! input args = Some (ImageFile img) →
  resolved_height (width args) (height args) img = inr h →
  resize img (width args) h = inr resized →
  threshold_rows resized (width args) h (threshold args) (invert args)
  = inr pixels →
  render_sheet column_letter pixels (width args) h = inr ws →
  save_error w (output args) = None →
  check_mark_error w = None →
  main resize column_letter args w
  = (Ok (),
     World
       (<[output args := XlsxFile (openpyxl.Workbook ws)]> (files w))
       (save_error w)
       (check_mark_error w)
       (stdout w ++ [loading_line args; creating_line args;
                     success_line args (width args) h])
       (stderr w)
       (calls w ++ [OpenCall (input args); ResizeCall (width args) h;
                    SaveCall (output args)])).
Proof.
  intros Hvalid Hfile Hheight Hresize Hrows Hsheet Hsave Hmark.
  rewrite (main_after_load _ _ _ _ _ _ Hvalid Hfile Hheight Hresize Hrows).
  unfold after_load. rewrite Hsheet. simpl. rewrite Hsave, Hmark.
  unfold add_stdout, write_file, log_call. simpl.
  by rewrite <- !app_assoc, ?Hmark.
Qed.



(** Case analysis along a run: the three checks, the loader, the sheet,
    the save and the success line. *)
Ltac run_cases :=
  unfold run; rewrite main_eq, ?load_eq; unfold after_load, leave; simpl;
  inner_cases.

(** X15. A run changes a file only by calling [wb.save]: a run that ends
    before that call (on the checks of the arguments, in the loader, or on
    the letter of a column) leaves every file as it was, and a run that
    ends with status 0 has made the call. *)
Theorem files_change_only_by_save args w :
  let '(status, w') := run resize column_letter args w in
  ∃ new,
    calls w' = calls w ++ new
    ∧ (SaveCall (output args) ∉ new → files w' = files w)
    ∧ (status = 0 → SaveCall (output args) ∈ new).
Proof.
  run_cases.
  all: eexists; split;
    [first [by rewrite app_nil_r|by rewrite <- ?app_assoc]|].
  all: split; [|try done].
  all: try done.
  all: try (intros Hnot; exfalso; apply Hnot).
  all: try intros _; simpl; rewrite ?elem_of_cons; tauto.
Qed.

(** X16. [main] calls [sys.exit] with status 1 only, and only after one
    message on the error stream, which starts with "Error".  When [main]
    returns, and when an exception leaves it, it has written nothing to
    the error stream itself. *)
Theorem main_exit_is_reported args w :
  let '(o, w') := main resize column_letter args w in
  match o with
  | Ok _ => stderr w' = stderr w
  | Raise _ => stderr w' = stderr w
  | Exit code =>
      code = 1
      ∧ ∃ msg, stderr w' = stderr w ++ [msg]
               ∧ starts_with "Error" msg = true
  end.
Proof.
  rewrite main_eq, ?load_eq. unfold after_load, leave. simpl. inner_cases.
  all: try done.
  all: split; [done|]; eexists; split; [done|].
  all: try match goal with
           | |- context [loader_message _ ?e] => by destruct e
           end.
  all: done.
Qed.

(** The sheet of the complemented grid is built when the sheet of the
    grid is. *)
Lemma render_sheet_complement pixels W H :
  render_sheet column_letter (map (map negb) pixels) W H
  = match render_sheet column_letter pixels W H with
    | inl e => inl e
    | inr _ => inr (built_sheet column_letter (map (map negb) pixels) W H)
    end.
Proof. rewrite !render_sheet_eq. by case_decide. Qed.

(** X17. [--invert] changes the look of the cells and nothing else: the
    run with it ends as the run without it does, with the same lines on
    both streams and the same calls, and the files other than the output
    are the same. *)
Theorem invert_keeps_the_run args w :
  let '(status, w') := run resize column_letter (with_invert false args) w in
  let '(status_inv, w_inv) :=
    run resize column_letter (with_invert true args) w in
  status_inv = status
  ∧ stdout w_inv = stdout w'
  ∧ stderr w_inv = stderr w'
  ∧ calls w_inv = calls w'
  ∧ ∀ p, p ≠ output args → files w_inv !! p = files w' !! p.
Proof.
  unfold run. rewrite !main_eq. simpl.
  destruct (width args <=? 0); simpl; [done|].
  destruct (match height args with Some h => h <=? 0 | None => false end);
    simpl; [done|].
  destruct (negb ((0 <=? threshold args) && (threshold args <=? 255)));
    simpl; [done|].
  rewrite !load_eq. simpl.
  destruct (files w !! input args) as [f|]; simpl; [|done].
  destruct (decode (input args) f) as [e|img]; simpl; [done|].
  destruct (resolved_height (width args) (height args) img) as [e|h];
    simpl; [done|].
  destruct (resize img (width args) h) as [e|resized]; simpl; [done|].
  rewrite threshold_rows_invert.
  unfold mbind, result_mbind, result_bind, mret, result_ret.
  destruct (threshold_rows resized (width args) h (threshold args) false)
    as [e|pixels]; simpl; [done|].
  unfold after_load. rewrite render_sheet_complement. simpl.
  destruct (render_sheet column_letter pixels (width args) h) as [e|ws];
    simpl; [done|].
  destruct (save_error w (output args)) as [failure|]; simpl.
  { by destruct (left_behind failure). }
  destruct (check_mark_error w); simpl;
    repeat split; intros p Hp; by rewrite !lookup_insert_ne.
Qed.

(** X18. Running again repeats the result: after a run that ended with
    status 0 and left the input file as it was, a second run with the same
    arguments ends with status 0 too and leaves every file as the first run
    left it. *)
Theorem second_run_repeats_first args w :
  (run resize column_letter args w).1 = 0 →
  let w1 := (run resize column_letter args w).2 in
  files w1 !! input args = files w !! input args →
  (run resize column_letter args w1).1 = 0
  ∧ files (run resize column_letter args w1).2 = files w1.
Proof.
  intros Hok.
  destruct (run_success_inv _ _ Hok)
    as (img & h & resized & pixels & ws & Hvalid & Hfile & Hheight & Hresize
        & Hrows & Hsheet & Hsave & Hmark).
  cbv zeta. unfold run.
  rewrite (main_success_eq _ _ _ _ _ _ _ Hvalid Hfile Hheight Hresize Hrows
             Hsheet Hsave Hmark).
  cbn [snd]. intros Hkept.
  erewrite main_success_eq; try done.
  - simpl. split; [done|]. apply insert_insert_eq.
  - by rewrite Hkept.
Qed.





End Properties.

(** ** The statements at sample inputs *)

Lemma threshold_is_strict_witness :
  ∃ img resized v row,
    files sample_world !! "in.png" = Some (ImageFile img)
    ∧ nearest_resize img 2 2 = inr resized
    ∧ PIL.getpixel resized 1 0 = inr v
    ∧ diagonal_grid !! Z.to_nat 0 = Some row
    ∧ row !! Z.to_nat 1 = Some (v <? 128)
    ∧ (v = 128 → row !! Z.to_nat 1 = Some false)
    ∧ (∀ t' pixels' w'', t' ≤ v →
         load_and_process_image nearest_resize "in.png" 2 None t' false
           sample_world
         = (Ok (pixels', 2, 2), w'') →
         ∃ row', pixels' !! Z.to_nat 0 = Some row'
                 ∧ row' !! Z.to_nat 1 = Some false).
Proof.
  apply (threshold_is_strict nearest_resize "in.png" 2 None 128 sample_world
           diagonal_grid 2 2
           (log_call (ResizeCall 2 2)
              (log_call (OpenCall "in.png") sample_world)) 1 0);
    [vm_compute; reflexivity|lia|lia].
Defined.

Lemma grid_has_resolved_shape_witness :
  Z.of_nat (length diagonal_grid) = 2
  ∧ Forall (λ row : list bool, Z.of_nat (length row) = 2) diagonal_grid.
Proof.
  apply (grid_has_resolved_shape nearest_resize "in.png" 2 None 128 false
           sample_world diagonal_grid 2 2
           (log_call (ResizeCall 2 2)
              (log_call (OpenCall "in.png") sample_world)));
    [vm_compute; reflexivity|lia|lia].
Defined.




Lemma invalid_arguments_rejected_witness :
  ∃ msg,
    run nearest_resize A1_column_letter zero_width_args sample_world
    = (1, add_stderr msg sample_world)
    ∧ msg ∈ [width_error; height_error; threshold_error]
    ∧ one_line msg = true
    ∧ stderr (run nearest_resize A1_column_letter zero_width_args
                sample_world).2 = stderr sample_world ++ [msg]
    ∧ stdout (run nearest_resize A1_column_letter zero_width_args
                sample_world).2 = stdout sample_world
    ∧ files (run nearest_resize A1_column_letter zero_width_args
               sample_world).2 = files sample_world
    ∧ calls (run nearest_resize A1_column_letter zero_width_args
               sample_world).2 = calls sample_world.
Proof.
  apply (invalid_arguments_rejected nearest_resize A1_column_letter
           zero_width_args sample_world).
  left. simpl. lia.
Defined.



(** C4, as stated, fails: a 49x1 image at width 49 gets the height 0,
    although 49 * 1 / 49 = 1. *)
Lemma height_of_strip_is_not_floor : ¬ height_is_floor 49 strip_image.
Proof. unfold height_is_floor. vm_compute. discriminate. Qed.

Example height_of_strip :
  PyFloat.int_truediv 1 49 = inr (S754_finite false 5882252574524729 (-58))
  ∧ resolved_height 49 None strip_image = inr 0.
Proof. by vm_compute. Qed.

Lemma derived_height_near_floor_witness :
  ∃ h,
    resolved_height 49 None strip_image = inr h
    ∧ 49 * 1 / 49 - 1 ≤ h ≤ 49 * 1 / 49
    ∧ ((49 * 1) mod 49 ≠ 0 → h = 49 * 1 / 49)
    ∧ (∀ path t inv w pixels W' H' w',
         files w !! path = Some (ImageFile strip_image) →
         load_and_process_image nearest_resize path 49 None t inv w
         = (Ok (pixels, W', H'), w') →
         H' = h).
Proof.
  apply (derived_height_near_floor nearest_resize 49 strip_image);
    simpl; lia.
Defined.




(** The ways a run ends, one run each. *)
Example run_succeeds :
  failure_of nearest_resize sample_args sample_world = None
  ∧ (run nearest_resize A1_column_letter sample_args sample_world).1 = 0.
Proof. by vm_compute. Qed.

Example run_fails_validation :
  failure_of nearest_resize zero_width_args sample_world
  = Some ValidationError
  ∧ (run nearest_resize A1_column_letter zero_width_args sample_world).1 = 1.
Proof. by vm_compute. Qed.

Example run_fails_input_not_found :
  failure_of nearest_resize missing_input_args sample_world
  = Some InputNotFound
  ∧ (run nearest_resize A1_column_letter missing_input_args
       sample_world).1 = 1.
Proof. by vm_compute. Qed.

Example run_fails_image_processing :
  failure_of nearest_resize strip_args sample_world
  = Some ImageProcessingError
  ∧ run nearest_resize A1_column_letter strip_args sample_world
    = (1, add_stderr "Error processing image: height and width must be > 0"
            (log_call (ResizeCall 49 0)
               (log_call (OpenCall "strip.png")
                  (add_stdout (loading_line strip_args) sample_world)))).
Proof. by vm_compute. Qed.

Example run_fails_output_write :
  failure_of nearest_resize locked_output_args sample_world
  = Some OutputWriteError
  ∧ (run nearest_resize A1_column_letter locked_output_args
       sample_world).1 = 1.
Proof. by vm_compute. Qed.

Example run_fails_on_success_line :
  failure_of nearest_resize sample_args ascii_world
  = Some UncaughtException
  ∧ (run nearest_resize A1_column_letter sample_args ascii_world).1 = 1.
Proof. by vm_compute. Qed.

Example script_shows_help :
  (run_script nearest_resize A1_column_letter sample_parse_args ["-h"]
     sample_world).1 = 0
  ∧ calls (run_script nearest_resize A1_column_letter sample_parse_args
             ["-h"] sample_world).2 = [].
Proof. split; vm_compute; reflexivity. Qed.

(** ** The further statements at sample inputs *)

Lemma loader_returns_request_witness :
  2 = 2
  ∧ (∀ h, None = Some h → 2 = h)
  ∧ calls (log_call (ResizeCall 2 2)
             (log_call (OpenCall "in.png") sample_world))
    = calls sample_world ++ [OpenCall "in.png"; ResizeCall 2 2]
  ∧ stdout (log_call (ResizeCall 2 2)
              (log_call (OpenCall "in.png") sample_world))
    = stdout sample_world
  ∧ stderr (log_call (ResizeCall 2 2)
              (log_call (OpenCall "in.png") sample_world))
    = stderr sample_world
  ∧ files (log_call (ResizeCall 2 2)
             (log_call (OpenCall "in.png") sample_world))
    = files sample_world.
Proof.
  apply (loader_returns_request nearest_resize "in.png" 2 None 128 false
           sample_world diagonal_grid 2 2
           (log_call (ResizeCall 2 2)
              (log_call (OpenCall "in.png") sample_world))).
  vm_compute. reflexivity.
Defined.

Lemma zero_width_image_witness :
  load_and_process_image nearest_resize "empty.png" 3 None 128 false
    edge_world
  = (Exit 1,
     add_stderr "Error processing image: division by zero"
       (log_call (OpenCall "empty.png") edge_world))
  ∧ ∀ h, calls (load_and_process_image nearest_resize "empty.png" 3
                  (Some h) 128 false edge_world).2
         = calls edge_world ++ [OpenCall "empty.png"; ResizeCall 3 h].
Proof.
  apply (zero_width_image nearest_resize "empty.png" 3 128 false edge_world
           empty_image); reflexivity.
Defined.

Lemma threshold_is_monotone_witness :
  ∃ pixels',
    threshold_rows tall_image 2 6 200 false = inr pixels'
    ∧ length pixels' = 6%nat
    ∧ ∀ r c,
        grid_at [[true; true]; [true; true]; [true; true];
                 [false; false]; [false; false]; [false; false]] r c
        = Some true →
        grid_at pixels' r c = Some true.
Proof.
  refine (proj2 (threshold_is_monotone tall_image 2 6 128 200 false false) _
            [[true; true]; [true; true]; [true; true];
             [false; false]; [false; false]; [false; false]] _);
    [lia|vm_compute; reflexivity].
Defined.

Lemma derived_height_of_whole_ratio_witness :
  derive_height 4 tall_image = inr (4 * 3).
Proof.
  apply (derived_height_of_whole_ratio 4 tall_image 3);
    simpl; try lia; reflexivity.
Defined.

Lemma derived_height_positive_witness :
  ∃ h, derive_height 3 tall_image = inr h ∧ 1 ≤ h.
Proof.
  apply (derived_height_positive 3 tall_image); simpl; lia.
Defined.


(** The order of the checks, on arguments that fail all of them, the last
    two, and the last one. *)
Example checks_in_order :
  run nearest_resize A1_column_letter all_invalid_args sample_world
  = (1, add_stderr width_error sample_world)
  ∧ run nearest_resize A1_column_letter bad_height_args sample_world
    = (1, add_stderr height_error sample_world)
  ∧ run nearest_resize A1_column_letter bad_threshold_args sample_world
    = (1, add_stderr threshold_error sample_world).
Proof. by vm_compute. Qed.

(** The sheet of a grid whose rows differ in length. *)
Example sheet_of_ragged_grid :
  let ws := built_sheet A1_column_letter ragged_grid 2 2 in
  render_sheet A1_column_letter ragged_grid 2 2 = inr ws
  ∧ openpyxl.cells ws !! (2, 3) = Some (painted true)
  ∧ openpyxl.cells ws !! (1, 2) = Some openpyxl.blank
  ∧ openpyxl.cells ws !! (1, 3) = None.
Proof. by vm_compute. Qed.

(** The sample run, run again. *)
Lemma second_run_repeats_first_witness :
  let w1 :=
    (run nearest_resize A1_column_letter sample_args sample_world).2 in
  (run nearest_resize A1_column_letter sample_args w1).1 = 0
  ∧ files (run nearest_resize A1_column_letter sample_args w1).2 = files w1.
Proof.
  apply (second_run_repeats_first nearest_resize A1_column_letter sample_args
           sample_world).
  - vm_compute. reflexivity.
  - vm_compute. reflexivity.
Defined.



